(** * flask-mtango: the caching and protocol-translation layer of [mtango.py]

    A shallow embedding of the module [mtango.py] (a Python 2 Flask
    blueprint in front of a TANGO control system) and the properties of its
    stateful or structural parts:

    - [Codec]   the flat positional encoding of device properties
                ([encode_device_properties], [decode_device_properties]);
    - [Pool]    the bounded cache of device proxies ([get_device_proxy]);
    - [Cache]   the time-bounded cache of database reads ([CachedMethod],
                [CachedDatabase]);
    - [Bridge]  the attribute routes ([get_device_attribute],
                [get_put_device_attributes]) and [make_error_response];
    - [Props]   the property routes ([get_device_properties],
                [read_write_device_property]);
    - [Ext]     the routes [get_device_state], [get_device_attributes] and
                [post_device_attribute_info].

    Python values are modelled as the module uses them: a string as the
    [string] of its characters, and where the module applies [str] to it
    as a [PyStr] that tells a byte string from a unicode object; lists as
    [list], the integers of [len], [int] and of list positions as [Z], a
    raised exception as the [Raise] outcome of a computation.  Everything outside the process (the TANGO devices, the
    TANGO database, the wall clock) is one environment that the remote calls
    of PyTango transform. *)

From Stdlib Require Import ZArith Lia ZifyBool Ascii String Decimal.
From Stdlib Require Import DecimalString DecimalPos.
From stdpp Require Import gmap strings list.

Local Open Scope string_scope.
Local Open Scope list_scope.
Local Open Scope Z_scope.

(** ** Python essentials *)

Module Py.

(** One TANGO error of a [DevFailed] stack ([PyTango.DevError]). *)
Inductive ErrSeverity := WARN | ERR | PANIC.

Record DevError := mkDevError {
  reason : string;
  desc : string;
  severity : ErrSeverity;
  origin : string
}.

(** The exceptions that the modelled code can see. *)
Inductive exn :=
| IndexError
| ValueError
| KeyError
| TypeError
| UnicodeEncodeError
| DevFailed (errors : list DevError).

(** The outcome of a pure Python computation. *)
Inductive result (A : Type) :=
| Ok (a : A)
| Raise (e : exn).
Arguments Ok {A} a.
Arguments Raise {A} e.

Definition rbind {A B} (r : result A) (k : A -> result B) : result B :=
  match r with
  | Ok a => k a
  | Raise e => Raise e
  end.

(** [l[i]]: a negative position counts from the end, anything out of range
    raises [IndexError]. *)
Definition index {A} (l : list A) (i : Z) : result A :=
  let n := Z.of_nat (length l) in
  let j := if i <? 0 then i + n else i in
  if (0 <=? j) && (j <? n)
  then match l !! Z.to_nat j with
       | Some x => Ok x
       | None => Raise IndexError
       end
  else Raise IndexError.

(** A slice bound is clipped into [0, len(l)], never refused. *)
Definition clip (n i : Z) : Z :=
  if i <? 0 then Z.max (i + n) 0 else Z.min i n.

(** [l[a:b]] *)
Definition slice {A} (l : list A) (a b : Z) : list A :=
  let n := Z.of_nat (length l) in
  let a' := clip n a in
  let b' := clip n b in
  take (Z.to_nat (b' - a')) (drop (Z.to_nat a') l).

(** [str(n)] for an integer: decimal digits, a minus sign when negative. *)
Definition str_int (z : Z) : string :=
  NilEmpty.string_of_int (Z.to_int z).

(** The characters that [str.strip] and [int] take for white space. *)
Definition isspace (c : ascii) : bool :=
  let n := N_of_ascii c in
  (N.eqb n 32 || (N.leb 9 n && N.leb n 13))%N.

Fixpoint lstrip (s : string) : string :=
  match s with
  | String c r => if isspace c then lstrip r else s
  | EmptyString => EmptyString
  end.

Fixpoint rstrip (s : string) : string :=
  match s with
  | String c r =>
      match rstrip r with
      | EmptyString => if isspace c then EmptyString else String c EmptyString
      | r' => String c r'
      end
  | EmptyString => EmptyString
  end.

Definition strip (s : string) : string := lstrip (rstrip s).

(** A non-empty run of decimal digits. *)
Definition digits (s : string) : result Z :=
  match s with
  | EmptyString => Raise ValueError
  | _ => match NilEmpty.uint_of_string s with
         | Some d => Ok (Z.of_uint d)
         | None => Raise ValueError
         end
  end.

(** [int(s)] for a byte string: surrounding white space, one optional sign,
    decimal digits; [ValueError] otherwise. *)
Definition int (s : string) : result Z :=
  match strip s with
  | String "-" r => rbind (digits r) (fun z => Ok (- z))
  | String "+" r => digits r
  | t => digits t
  end.

(** No character of [s] is white space. *)
Fixpoint nospace (s : string) : bool :=
  match s with
  | String c r => negb (isspace c) && nospace r
  | EmptyString => true
  end.

End Py.

Export Py.

Declare Scope py_scope.
Delimit Scope py_scope with py.
Notation "x <-? e ;; k" := (rbind e (fun x => k))
  (at level 100, e at next level, k at level 200, right associativity)
  : py_scope.
Local Open Scope py_scope.

(** ** The property wire codec *)

Module Codec.

(** One decoded property, the dict [{"name": prop, "values": value}]. *)
Record Property := mkProperty {
  name : string;
  values : list string
}.

(** The [for] loop of [decode_device_properties]: [n] iterations are left,
    [pos] is the position in [data], [props] the list built so far. *)
Fixpoint decode_loop (n : nat) (data : list string) (pos : Z)
    (props : list Property) : result (list Property) :=
  match n with
  | O => Ok props
  | S n' =>
      prop <-? index data pos ;;
      count <-? index data (pos + 1) ;;
      length <-? int count ;;
      let value := slice data (pos + 2) (pos + 2 + length) in
      decode_loop n' data (pos + 2 + length)
        (props ++ [mkProperty prop value])
  end.

(** [range(n)] is empty for a negative [n]. *)
Definition decode_device_properties (data : list string)
    : result (list Property) :=
  count <-? index data 1 ;;
  n <-? int count ;;
  decode_loop (Z.to_nat n) data 2 [].

(** A string object of Python 2: a byte string ([str]), given by its
    bytes, or a [unicode] object, given by its code points.  The values of
    [request.args] are unicode objects; what the database returns are byte
    strings. *)
Inductive PyStr :=
| Str (s : string)
| Unicode (u : list N).

(** The byte string of the code points [u], one byte for each; [str]
    makes it of code points below 128 only. *)
Definition chars (u : list N) : string :=
  string_of_list_ascii (map ascii_of_N u).

(** The code points of the characters of [s], one for each. *)
Definition code_points (s : string) : list N :=
  map N_of_ascii (list_ascii_of_string s).

(** The unicode object with the characters of [s]. *)
Definition unicode (s : string) : PyStr := Unicode (code_points s).

(** The characters of a string object. *)
Definition text (v : PyStr) : string :=
  match v with
  | Str s => s
  | Unicode u => chars u
  end.

Definition ascii_only (u : list N) : bool :=
  forallb (fun c => (c <? 128)%N) u.

(** [str(v)]: a byte string is returned as it is; a unicode object is
    encoded with the default codec, ["ascii"], which raises
    [UnicodeEncodeError] at a code point that is not ASCII. *)
Definition str (v : PyStr) : result string :=
  match v with
  | Str s => Ok s
  | Unicode u => if ascii_only u then Ok (chars u) else Raise UnicodeEncodeError
  end.

(** The generator [(str(v) for v in values)], as [args.extend] consumes
    it. *)
Fixpoint strs (values : list PyStr) : result (list string) :=
  match values with
  | [] => Ok []
  | v :: values' =>
      s <-? str v ;;
      rest <-? strs values' ;;
      Ok (s :: rest)
  end.

(** The [for] loop of [encode_device_properties] over [data.items()]. *)
Fixpoint encode_loop (items : list (string * list PyStr))
    (args : list string) : result (list string) :=
  match items with
  | [] => Ok args
  | (prop, values) :: items' =>
      vs <-? strs values ;;
      encode_loop items'
        (args ++ [prop] ++ [str_int (Z.of_nat (length values))] ++ vs)
  end.

(** [data] is the dict in the order that [data.items()] yields it. *)
Definition encode_device_properties (device : string)
    (data : list (string * list PyStr)) : result (list string) :=
  encode_loop data [device; str_int (Z.of_nat (length data))].

(** The properties that a dict holds, as [decode_device_properties] lists
    them: the values are the characters of the values of the dict. *)
Definition properties_of (data : list (string * list PyStr))
    : list Property :=
  map (fun item => mkProperty (fst item) (map text (snd item))) data.

(** What one item of the dict contributes to the flat sequence. *)
Definition item_flat (item : string * list PyStr) : list string :=
  fst item :: str_int (Z.of_nat (length (snd item))) :: map text (snd item).

Definition flat (data : list (string * list PyStr)) : list string :=
  concat (map item_flat data).

(** A byte string, or a unicode object of ASCII characters only. *)
Definition plain (v : PyStr) : bool :=
  match v with
  | Str _ => true
  | Unicode u => ascii_only u
  end.

(** Every value of the dict is [plain]. *)
Definition encodable (data : list (string * list PyStr)) : bool :=
  forallb (fun item => forallb plain (snd item)) data.

(** A dict of byte strings, and a dict of unicode objects, from the
    characters of the values. *)
Definition byte_strings (data : list (string * list string))
    : list (string * list PyStr) :=
  map (fun item => (fst item, map Str (snd item))) data.

Definition unicode_strings (data : list (string * list string))
    : list (string * list PyStr) :=
  map (fun item => (fst item, map unicode (snd item))) data.

End Codec.

(** ** PyTango: the types of the binding and the remote system *)

Module Tango.

Inductive DevState :=
| ON | OFF | CLOSE | OPEN | INSERT | EXTRACT | MOVING
| STANDBY | FAULT | INIT | RUNNING | ALARM | DISABLE | UNKNOWN.

Inductive AttrWriteType := READ | READ_WITH_WRITE | WRITE | READ_WRITE.

Inductive AttrQuality :=
| ATTR_VALID | ATTR_INVALID | ATTR_ALARM | ATTR_CHANGING | ATTR_WARNING.

(** The type codes of [PyTango.CmdArgType]. *)
Inductive CmdArgType :=
| DevVoid | DevBoolean | DevShort | DevLong | DevFloat | DevDouble
| DevUShort | DevULong | DevString | DevVarCharArray | DevVarShortArray
| DevVarLongArray | DevVarFloatArray | DevVarDoubleArray
| DevVarUShortArray | DevVarULongArray | DevVarStringArray
| DevVarLongStringArray | DevVarDoubleStringArray | DevStateCode
| ConstDevString | DevVarBooleanArray | DevUChar | DevLong64 | DevULong64
| DevVarLong64Array | DevVarULong64Array | DevInt | DevEncoded.

(** The value of a scalar attribute as Python sees it.  Floating-point
    numbers and the numpy arrays of spectrum and image attributes have no
    counterpart here. *)
Inductive PyObj :=
| PNone
| PBool (b : bool)
| PInt (z : Z)
| PStr (s : string)
| PState (s : DevState).

(** An argument of a database command: a string or a list of strings. *)
Inductive Arg :=
| AStr (s : string)
| AList (l : list string).

(** The fields of [AttributeInfoEx] that the routes read. *)
Record AttributeInfo := mkAttributeInfo {
  ai_name : string;
  ai_data_type : CmdArgType;
  ai_writable : AttrWriteType
}.

(** The fields of [DeviceAttribute] that the routes read; [da_time] is
    [time.totime()]. *)
Record DeviceAttribute := mkDeviceAttribute {
  da_name : string;
  da_value : PyObj;
  da_quality : AttrQuality;
  da_time : Z
}.

(** A [PyTango.DeviceProxy] object: the device it is bound to and the
    identity of the object (how many proxies were created before it). *)
Record DeviceProxy := mkDeviceProxy {
  dev_name : string;
  ident : nat
}.

(** The remote calls that the module issues through PyTango. *)
Inductive Call :=
| NewDeviceProxy (devname : string)
| Command (dev name : string) (args : list Arg)
| GetAttributeConfig (dev attr : string)
| GetAttributeConfigList (dev : string) (attrs : list string)
| GetAttributeList (dev : string)
| ReadAttribute (dev attr : string)
| WriteAttribute (dev attr : string) (value : PyObj)
| WriteReadAttribute (dev attr : string) (value : PyObj).

(** Everything outside the process: the state [E] of the control system
    and of the wall clock, and what each call of PyTango does to it.  A
    call returns or raises, and may change the state either way.
    [str_2_obj] is [PyTango.utils.str_2_obj]; [is_DevState] is the
    comparison [data_type == PyTango.DevState]. *)
Record System := mkSystem {
  E : Type;
  clock : E -> Z;
  new_DeviceProxy : string -> E -> result unit * E;
  command_inout : string -> string -> list Arg -> E -> result (list string) * E;
  get_attribute_config : string -> string -> E -> result AttributeInfo * E;
  get_attribute_config_list :
    string -> list string -> E -> result (list AttributeInfo) * E;
  get_attribute_list : string -> E -> result (list string) * E;
  read_attribute : string -> string -> E -> result DeviceAttribute * E;
  write_attribute : string -> string -> PyObj -> E -> result unit * E;
  write_read_attribute :
    string -> string -> PyObj -> E -> result DeviceAttribute * E;
  str_2_obj : string -> CmdArgType -> result PyObj;
  is_DevState : CmdArgType -> bool
}.

Definition str_DevState (s : DevState) : string :=
  match s with
  | ON => "ON" | OFF => "OFF" | CLOSE => "CLOSE" | OPEN => "OPEN"
  | INSERT => "INSERT" | EXTRACT => "EXTRACT" | MOVING => "MOVING"
  | STANDBY => "STANDBY" | FAULT => "FAULT" | INIT => "INIT"
  | RUNNING => "RUNNING" | ALARM => "ALARM" | DISABLE => "DISABLE"
  | UNKNOWN => "UNKNOWN"
  end.

Definition str_AttrQuality (q : AttrQuality) : string :=
  match q with
  | ATTR_VALID => "ATTR_VALID" | ATTR_INVALID => "ATTR_INVALID"
  | ATTR_ALARM => "ATTR_ALARM" | ATTR_CHANGING => "ATTR_CHANGING"
  | ATTR_WARNING => "ATTR_WARNING"
  end.

Definition str_ErrSeverity (s : ErrSeverity) : string :=
  match s with
  | WARN => "WARN" | ERR => "ERR" | PANIC => "PANIC"
  end.

(** [str(value)] *)
Definition str_PyObj (v : PyObj) : string :=
  match v with
  | PNone => "None"
  | PBool true => "True"
  | PBool false => "False"
  | PInt z => str_int z
  | PStr s => s
  | PState s => str_DevState s
  end.

(** [isinstance(value, PyTango._PyTango.DevState)] *)
Definition isinstance_DevState (v : PyObj) : bool :=
  match v with
  | PState _ => true
  | _ => false
  end.

Global Instance Arg_eq_dec : EqDecision Arg.
Proof. solve_decision. Defined.

Global Instance Arg_countable : Countable Arg.
Proof.
  refine (inj_countable'
            (fun a => match a with AStr s => inl s | AList l => inr l end)
            (fun x => match x with inl s => AStr s | inr l => AList l end) _).
  now intros [].
Defined.

End Tango.

Export Tango.

(** ** The process: module-level state and the computations over it *)

Module TTLDict.

(** Modelled from the spec: the class [TTLDict] of the package [ttldict]
    that [mtango.py] imports, which is no part of the repository.  The data
    model has a cache entry map a call signature to a value and its
    insertion time; an entry is returned only while
    [now - insertion_time < ttl], and an expired entry is logically absent
    whether or not it was removed.  A signature has to be hashable. *)
Record t := mk {
  default_ttl : Z;
  entries : gmap (list Arg) (list string * Z)
}.

Definition init (default_ttl : Z) : t := mk default_ttl ∅.

Definition hashable (key : list Arg) : bool :=
  forallb (fun a => match a with AStr _ => true | AList _ => false end) key.

(** The value that [key] has at the time [now], if any. *)
Definition live (d : t) (now : Z) (key : list Arg) : option (list string) :=
  match entries d !! key with
  | Some (value, inserted) =>
      if now - inserted <? default_ttl d then Some value else None
  | None => None
  end.

(** [key in d] *)
Definition contains (d : t) (now : Z) (key : list Arg) : result bool :=
  if hashable key
  then Ok (match live d now key with Some _ => true | None => false end)
  else Raise TypeError.

(** [d[key]] *)
Definition getitem (d : t) (now : Z) (key : list Arg) : result (list string) :=
  if hashable key
  then match live d now key with
       | Some value => Ok value
       | None => Raise KeyError
       end
  else Raise TypeError.

(** [d[key] = value] *)
Definition setitem (d : t) (now : Z) (key : list Arg) (value : list string)
    : result t :=
  if hashable key
  then Ok (mk (default_ttl d) (<[key := (value, now)]> (entries d)))
  else Raise TypeError.

End TTLDict.

Module Proc.

(** A [CachedMethod] object: its [TTLDict] and the method it wraps, which
    is the command of the database proxy [_db] of that name. *)
Record CachedMethod := mkCachedMethod {
  cache : TTLDict.t;
  method : string
}.

(** The state of the module: the environment, the remote calls issued so
    far (oldest first), the number of proxy objects created, the
    [OrderedDict] [device_proxies] in insertion order, and the class
    attribute [CachedDatabase._methods]. *)
Record World (T : System) := mkWorld {
  env : E T;
  calls : list Call;
  created : nat;
  device_proxies : list (string * DeviceProxy);
  _methods : gmap string CachedMethod
}.
Arguments mkWorld {T}.
Arguments env {T}.
Arguments calls {T}.
Arguments created {T}.
Arguments device_proxies {T}.
Arguments _methods {T}.

(** A computation: it returns or raises, and leaves a state either way. *)
Definition M (T : System) (A : Type) : Type := World T -> result A * World T.

Section Monad.
Context {T : System}.

Definition ret {A} (a : A) : M T A := fun w => (Ok a, w).

Definition raise {A} (e : exn) : M T A := fun w => (Raise e, w).

Definition bind {A B} (m : M T A) (k : A -> M T B) : M T B :=
  fun w =>
    match m w with
    | (Ok a, w') => k a w'
    | (Raise e, w') => (Raise e, w')
    end.

Definition lift {A} (r : result A) : M T A := fun w => (r, w).

(** [try: m except PyTango.DevFailed as e: ...]: the outcome of [m] with a
    [DevFailed] caught; any other exception passes. *)
Definition try_DevFailed {A} (m : M T A) : M T (A + list DevError) :=
  fun w =>
    match m w with
    | (Ok a, w') => (Ok (inl a), w')
    | (Raise (DevFailed errors), w') => (Ok (inr errors), w')
    | (Raise e, w') => (Raise e, w')
    end.

(** [time.time()] *)
Definition time_time : M T Z := fun w => (Ok (clock T (env w)), w).

(** A call into the remote system: it is recorded, and the environment
    moves on. *)
Definition remote {A} (c : Call) (f : E T -> result A * E T) : M T A :=
  fun w =>
    let '(r, e) := f (env w) in
    (r, mkWorld e (calls w ++ [c]) (created w) (device_proxies w) (_methods w)).

Definition get_device_proxies : M T (list (string * DeviceProxy)) :=
  fun w => (Ok (device_proxies w), w).

Definition set_device_proxies (d : list (string * DeviceProxy)) : M T unit :=
  fun w => (Ok tt, mkWorld (env w) (calls w) (created w) d (_methods w)).

Definition get_methods : M T (gmap string CachedMethod) :=
  fun w => (Ok (_methods w), w).

Definition set_methods (m : gmap string CachedMethod) : M T unit :=
  fun w => (Ok tt, mkWorld (env w) (calls w) (created w) (device_proxies w) m).

(** A new Python object: its identity is the number of those before it. *)
Definition fresh : M T nat :=
  fun w =>
    (Ok (created w),
     mkWorld (env w) (calls w) (S (created w)) (device_proxies w) (_methods w)).

(** A sequence of requests, one after the other; a request that raises
    does not keep the next from being served. *)
Fixpoint serve {A} (requests : list (M T A)) (w : World T)
    : list (result A) * World T :=
  match requests with
  | [] => ([], w)
  | m :: rest =>
      let '(r, w') := m w in
      let '(rs, w'') := serve rest w' in
      (r :: rs, w'')
  end.

End Monad.

Notation "x <- e ;; k" := (bind e (fun x => k))
  (at level 100, e at next level, k at level 200, right associativity)
  : py_scope.
Notation "e ;;; k" := (bind e (fun _ => k))
  (at level 100, k at level 200, right associativity) : py_scope.

(** [for x in l: ...] collecting one result per element. *)
Fixpoint for_each {T A B} (f : A -> M T B) (l : list A) : M T (list B) :=
  match l with
  | [] => ret []
  | x :: rest =>
      y <- f x ;;
      ys <- for_each f rest ;;
      ret (y :: ys)
  end.

End Proc.

Export Proc.

(** ** The connection pool *)

Module Pool.

(** [collections.OrderedDict] from device names to proxies, as the list of
    its items in insertion order. *)
Definition OrderedDict := list (string * DeviceProxy).

(** [key in d] *)
Definition contains (d : OrderedDict) (key : string) : bool :=
  existsb (fun item => String.eqb (fst item) key) d.

(** [d[key]] *)
Definition getitem (d : OrderedDict) (key : string) : result DeviceProxy :=
  match find (fun item => String.eqb (fst item) key) d with
  | Some item => Ok (snd item)
  | None => Raise KeyError
  end.

(** [d.keys()] *)
Definition keys (d : OrderedDict) : list string := map fst d.

(** [del d[key]] *)
Definition delitem (d : OrderedDict) (key : string) : result OrderedDict :=
  if contains d key
  then Ok (List.filter (fun item => negb (String.eqb (fst item) key)) d)
  else Raise KeyError.

(** [d[key] = value]: a key that is present keeps its place, a new key goes
    to the end. *)
Fixpoint setitem (d : OrderedDict) (key : string) (value : DeviceProxy)
    : OrderedDict :=
  match d with
  | [] => [(key, value)]
  | item :: rest =>
      if String.eqb (fst item) key then (key, value) :: rest
      else item :: setitem rest key value
  end.

Definition MAX_PROXIES : nat := 100.

(** The [n] newest entries of [l]. *)
Definition newest {A} (n : nat) (l : list A) : list A :=
  drop (length l - n) l.

(** The pool after a miss: the oldest entry goes if the pool is full, the
    new one is appended. *)
Definition push_entry (d : OrderedDict) (item : string * DeviceProxy)
    : OrderedDict :=
  (if decide (length d = MAX_PROXIES) then tail d else d) ++ [item].

Section WithSystem.
Context {T : System}.

(** The pool as a dict within its bound: the keys are unique, and there are
    at most [MAX_PROXIES] of them. *)
Definition pool_ok (w : World T) : Prop :=
  NoDup (keys (device_proxies w)) /\
  (length (device_proxies w) <= MAX_PROXIES)%nat.

(** Every proxy of the pool is bound to the device it is filed under. *)
Definition pool_named (w : World T) : Prop :=
  Forall (fun item => dev_name (snd item) = fst item) (device_proxies w).

(** The process before the module is loaded. *)
Definition boot (e : E T) : World T := mkWorld e [] 0 [] ∅.

(** [PyTango.DeviceProxy(devname)] *)
Definition DeviceProxy_init (devname : string) : M T DeviceProxy :=
  remote (NewDeviceProxy devname) (new_DeviceProxy T devname) ;;;
  id <- fresh ;;
  ret (mkDeviceProxy devname id).

Definition get_device_proxy (devname : string) : M T DeviceProxy :=
  device_proxies <- get_device_proxies ;;
  if contains device_proxies devname
  then lift (getitem device_proxies devname)
  else
    proxy <- DeviceProxy_init devname ;;
    device_proxies <- get_device_proxies ;;
    (if Nat.eqb (length device_proxies) MAX_PROXIES
     then
       oldest <- lift (index (keys device_proxies) 0) ;;
       device_proxies <- lift (delitem device_proxies oldest) ;;
       set_device_proxies device_proxies
     else ret tt) ;;;
    device_proxies <- get_device_proxies ;;
    set_device_proxies (setitem device_proxies devname proxy) ;;;
    ret proxy.

(** What loading the module does to the state: the class attribute [_db]
    of [CachedDatabase] is made, [device_proxies] starts empty, and
    [db_proxy] is the first proxy of the pool. *)
Definition load : M T DeviceProxy :=
  DeviceProxy_init "sys/database/2" ;;;
  set_device_proxies [] ;;;
  get_device_proxy "sys/database/2".

End WithSystem.

End Pool.

(** ** The cache of database reads *)

Module Cache.

Section WithSystem.
Context {T : System}.

(** The bound method [getattr(self._db, name)] of the database proxy,
    called with [args]: the command of that name, run by the database
    device.  Looking the method up issues no call of its own. *)
Definition db_method (name : string) (args : list Arg) : M T (list string) :=
  remote (Command "sys/database/2" name args)
         (command_inout T "sys/database/2" name args).

(** The call that a fetch of [args] through the method [name] issues. *)
Definition inner_call (name : string) (args : list Arg) : Call :=
  Command "sys/database/2" name args.

(** The world after a remote call [c] that left the environment [e]. *)
Definition called (w : World T) (c : Call) (e : E T) : World T :=
  mkWorld e (calls w ++ [c]) (created w) (device_proxies w) (_methods w).

(** The world after [value] was stored for [args] in the object [self]. *)
Definition stored (w : World T) (self : string) (this : CachedMethod)
    (args : list Arg) (value : list string) : World T :=
  mkWorld (env w) (calls w) (created w) (device_proxies w)
    (<[self := mkCachedMethod
                 (TTLDict.mk (TTLDict.default_ttl (cache this))
                    (<[args := (value, clock T (env w))]>
                       (TTLDict.entries (cache this))))
                 (method this)]> (_methods w)).

(** [CachedMethod(method, ttl)] *)
Definition CachedMethod_init (method : string) (ttl : Z) : CachedMethod :=
  mkCachedMethod (TTLDict.init ttl) method.

(** The object that the reference [self] stands for. *)
Definition deref (self : string) : M T CachedMethod :=
  methods <- get_methods ;;
  match methods !! self with
  | Some this => ret this
  | None => raise KeyError
  end.

(** [args in self.cache] *)
Definition cache_contains (self : string) (args : list Arg) : M T bool :=
  this <- deref self ;;
  now <- time_time ;;
  lift (TTLDict.contains (cache this) now args).

(** [self.cache[args]] *)
Definition cache_getitem (self : string) (args : list Arg)
    : M T (list string) :=
  this <- deref self ;;
  now <- time_time ;;
  lift (TTLDict.getitem (cache this) now args).

(** [self.cache[args] = value] *)
Definition cache_setitem (self : string) (args : list Arg)
    (value : list string) : M T unit :=
  this <- deref self ;;
  now <- time_time ;;
  cache' <- lift (TTLDict.setitem (cache this) now args value) ;;
  methods <- get_methods ;;
  set_methods (<[self := mkCachedMethod cache' (method this)]> methods).

(** [CachedMethod.__call__]; [self] is the object [_methods[self]]. *)
Definition CachedMethod_call (self : string) (args : list Arg)
    : M T (list string) :=
  hit <- cache_contains self args ;;
  if hit : bool then cache_getitem self args
  else
    this <- deref self ;;
    value <- db_method (method this) args ;;
    cache_setitem self args value ;;;
    ret value.

(** What [CachedDatabase.__getattr__] returns: a method of the proxy
    [_db], or one of the [CachedMethod] objects of [_methods]. *)
Inductive Callable :=
| Plain (name : string)
| Cached (self : string).

(** [method.startswith(prefix)] *)
Fixpoint startswith (s prefix : string) : bool :=
  match prefix, s with
  | EmptyString, _ => true
  | String p prefix', String c s' => Ascii.eqb c p && startswith s' prefix'
  | String _ _, EmptyString => false
  end.

Record CachedDatabase := mkCachedDatabase { _ttl : Z }.

Definition CachedDatabase_getattr (self : CachedDatabase) (method : string)
    : M T Callable :=
  if negb (startswith method "Get")
  then ret (Plain method)
  else
    methods <- get_methods ;;
    (match methods !! method with
     | None =>
         set_methods (<[method := CachedMethod_init method (_ttl self)]> methods)
     | Some _ => ret tt
     end) ;;;
    ret (Cached method).

Definition call (f : Callable) (args : list Arg) : M T (list string) :=
  match f with
  | Plain name => db_method name args
  | Cached self => CachedMethod_call self args
  end.

(** [db = CachedDatabase(ttl=10)] *)
Definition db : CachedDatabase := mkCachedDatabase 10.

(** A call of a method of [db] by name, the way the routes use it. *)
Definition query (self : CachedDatabase) (method : string) (args : list Arg)
    : M T (list string) :=
  f <- CachedDatabase_getattr self method ;;
  call f args.

End WithSystem.

(** The database queries that the routes make. *)
Definition route_queries : list string :=
  ["DbGetDeviceWideList"; "DbGetDeviceInfo"; "DbGetDevicePropertyList";
   "DbGetDeviceProperty"; "DbPutDeviceProperty"].

End Cache.

(** ** The routes *)

Module Bridge.

Inductive HttpMethod := GET | PUT | POST.

(** The Flask request: its method and its query arguments, a multi-dict
    given as the keys in the order of [args.keys()], each with its values
    in the order of the query string. *)
Record Request := mkRequest {
  http_method : HttpMethod;
  args : list (string * list string)
}.

(** [args.get(key)]: the first value of the key, or [None]. *)
Definition args_get (a : list (string * list string)) (key : string)
    : option string :=
  match find (fun item => String.eqb (fst item) key) a with
  | Some (_, v :: _) => Some v
  | _ => None
  end.

(** [args.get(key, default)] *)
Definition args_get_default (a : list (string * list string))
    (key default : string) : string :=
  match args_get a key with
  | Some v => v
  | None => default
  end.

(** [args[key]] *)
Definition args_getitem (a : list (string * list string)) (key : string)
    : result string :=
  match args_get a key with
  | Some v => Ok v
  | None => Raise KeyError
  end.

(** The dict of [stringify_error]. *)
Record ErrorRecord := mkErrorRecord {
  e_reason : string;
  e_description : string;
  e_severity : string;
  e_origin : string
}.

(** The dict that a write or a read of an attribute answers with. *)
Record AttributeValue := mkAttributeValue {
  v_name : string;
  v_value : PyObj;
  v_quality : string;
  v_timestamp : Z;
  v__links : string
}.

(** The dict that lists one attribute of a device. *)
Record AttributeEntry := mkAttributeEntry {
  a_name : string;
  a_value : string;
  a_info : string;
  a_history : string;
  a_properties : string;
  a__links_device : string;
  a__links_parent : string;
  a__links_self : string
}.

(** What a route passes to [json.dumps], or the plain string it returns. *)
Inductive Payload :=
| Text (s : string)
| ErrorEnvelope (errors : list ErrorRecord) (quality : string) (timestamp : Z)
| Attribute (a : AttributeValue)
| Attributes (results : list AttributeValue)
| AttributeList (results : list AttributeEntry)
| Devices (devices : list (string * string)).

Record Response := mkResponse {
  data : Payload;
  status_code : nat
}.

Definition stringify_error (error : DevError) : ErrorRecord :=
  mkErrorRecord (reason error) (desc error)
                (str_ErrSeverity (severity error)) (origin error).

(** ["%s/%s/%s" % (domain, family, member)] *)
Definition device_name (domain family member : string) : string :=
  domain +:+ "/" +:+ family +:+ "/" +:+ member.

(** [attr_info.writable in (READ_WRITE, READ_WITH_WRITE)] *)
Definition write_read_capable (w : AttrWriteType) : bool :=
  match w with
  | READ_WRITE | READ_WITH_WRITE => true
  | _ => false
  end.

Section WithSystem.
Context {T : System}.

Definition make_error_response (e : list DevError) : M T Response :=
  now <- time_time ;;
  ret (mkResponse (ErrorEnvelope (map stringify_error e) "FAILURE" now) 500).

(** The methods of a proxy object that the routes call. *)
Definition proxy_get_attribute_config (proxy : DeviceProxy) (attr : string)
    : M T AttributeInfo :=
  remote (GetAttributeConfig (dev_name proxy) attr)
         (get_attribute_config T (dev_name proxy) attr).

Definition proxy_get_attribute_config_list (proxy : DeviceProxy)
    (attrs : list string) : M T (list AttributeInfo) :=
  remote (GetAttributeConfigList (dev_name proxy) attrs)
         (get_attribute_config_list T (dev_name proxy) attrs).

Definition proxy_get_attribute_list (proxy : DeviceProxy)
    : M T (list string) :=
  remote (GetAttributeList (dev_name proxy))
         (get_attribute_list T (dev_name proxy)).

Definition proxy_read_attribute (proxy : DeviceProxy) (attr : string)
    : M T DeviceAttribute :=
  remote (ReadAttribute (dev_name proxy) attr)
         (read_attribute T (dev_name proxy) attr).

Definition proxy_write_attribute (proxy : DeviceProxy) (attr : string)
    (value : PyObj) : M T unit :=
  remote (WriteAttribute (dev_name proxy) attr value)
         (write_attribute T (dev_name proxy) attr value).

Definition proxy_write_read_attribute (proxy : DeviceProxy) (attr : string)
    (value : PyObj) : M T DeviceAttribute :=
  remote (WriteReadAttribute (dev_name proxy) attr value)
         (write_read_attribute T (dev_name proxy) attr value).

(** The end of [get_device_attribute]: the answer made of [result]. *)
Definition attribute_response (result : DeviceAttribute) : M T Response :=
  let value :=
    if isinstance_DevState (da_value result)
    then PStr (str_PyObj (da_value result))
    else da_value result in
  ret (mkResponse
         (Attribute (mkAttributeValue (da_name result) value
                       (str_AttrQuality (da_quality result))
                       (da_time result) "..."))
         200).

(** The route of one attribute; its [print] is left out. *)
Definition get_device_attribute (request : Request)
    (domain family member attribute : string) : M T Response :=
  let device := device_name domain family member in
  r <- try_DevFailed (Pool.get_device_proxy device) ;;
  match r with
  | inr e => make_error_response e
  | inl proxy =>
      match http_method request with
      | PUT =>
          match args_get (args request) "value" with
          | None | Some EmptyString => ret (mkResponse (Text EmptyString) 200)
          | Some str_value =>
              attr_info <- proxy_get_attribute_config proxy attribute ;;
              value <- lift (str_2_obj T str_value (ai_data_type attr_info)) ;;
              result <-
                (if write_read_capable (ai_writable attr_info)
                 then proxy_write_read_attribute proxy attribute value
                 else
                   proxy_write_attribute proxy attribute value ;;;
                   proxy_read_attribute proxy attribute) ;;
              attribute_response result
          end
      | _ =>
          result <- proxy_read_attribute proxy attribute ;;
          attribute_response result
      end
  end.

(** The body of the loop of [get_put_device_attributes] over [infos]. *)
Definition put_attribute (request : Request) (proxy : DeviceProxy)
    (attr_info : AttributeInfo) : M T AttributeValue :=
  let attr := ai_name attr_info in
  str_value <- lift (args_getitem (args request) attr) ;;
  value <- lift (str_2_obj T str_value (ai_data_type attr_info)) ;;
  da <-
    (if write_read_capable (ai_writable attr_info)
     then proxy_write_read_attribute proxy attr value
     else
       proxy_write_attribute proxy attr value ;;;
       proxy_read_attribute proxy attr) ;;
  let value :=
    if is_DevState T (ai_data_type attr_info)
    then PStr (str_PyObj (da_value da))
    else da_value da in
  ret (mkAttributeValue attr value (str_AttrQuality (da_quality da))
         (da_time da) "...").

Definition attribute_entry (device attr : string) : AttributeEntry :=
  let base := "/devices/" +:+ device +:+ "/attributes/" +:+ attr in
  mkAttributeEntry attr
    (base +:+ "/value") (base +:+ "/info") (base +:+ "/history")
    (base +:+ "/properties")
    ("/devices/" +:+ device) base (base +:+ "/info").

Definition get_put_device_attributes (request : Request)
    (domain family member : string) : M T Response :=
  let device := device_name domain family member in
  r <- try_DevFailed (Pool.get_device_proxy device) ;;
  match r with
  | inr e => make_error_response e
  | inl proxy =>
      match http_method request with
      | PUT =>
          infos <- proxy_get_attribute_config_list proxy
                     (map fst (args request)) ;;
          results <- for_each (put_attribute request proxy) infos ;;
          ret (mkResponse (Attributes results) 200)
      | _ =>
          attributes <- proxy_get_attribute_list proxy ;;
          ret (mkResponse
                 (AttributeList (map (attribute_entry device) attributes))
                 200)
      end
  end.

(** The answer that [get_device_attribute] makes of a reading, and the
    outcome of the route when its last remote call had the outcome [r]. *)
Definition answer (result : DeviceAttribute) : Response :=
  mkResponse
    (Attribute
       (mkAttributeValue (da_name result)
          (if isinstance_DevState (da_value result)
           then PStr (str_PyObj (da_value result))
           else da_value result)
          (str_AttrQuality (da_quality result)) (da_time result) "..."))
    200.

Definition answer_of (r : result DeviceAttribute) : result Response :=
  match r with
  | Ok result => Ok (answer result)
  | Raise e => Raise e
  end.

(** The entry that the loop of [get_put_device_attributes] makes of a
    reading. *)
Definition entry (attr_info : AttributeInfo) (da : DeviceAttribute)
    : AttributeValue :=
  mkAttributeValue (ai_name attr_info)
    (if is_DevState T (ai_data_type attr_info)
     then PStr (str_PyObj (da_value da))
     else da_value da)
    (str_AttrQuality (da_quality da)) (da_time da) "...".

Definition entry_of (attr_info : AttributeInfo) (r : result DeviceAttribute)
    : result AttributeValue :=
  match r with
  | Ok da => Ok (entry attr_info da)
  | Raise e => Raise e
  end.

(** [get_devices]: the route [/devices]. *)
Definition get_devices (request : Request) : M T Response :=
  let wildcard := args_get_default (args request) "wildcard" "*" in
  devices <- Cache.query Cache.db "DbGetDeviceWideList" [AStr wildcard] ;;
  ret (mkResponse
         (Devices (map (fun d => (d, "/devices/" +:+ d)) devices))
         200).

End WithSystem.

End Bridge.

(** ** A small control system to run the module against *)

Module Mock.

(** Every device name connects except ["x/y/z"].  A device has the
    attributes ["level"] (read-write), ["setpoint"] (write-only), ["locked"]
    (read-write, but it refuses every write) and ["stuck"] (write-only, and
    it cannot be read); all are backed by [level], which the device keeps
    within 0 and 100.  A database command takes one tick of the clock and
    fails when its name is ["GetBroken"]. *)
Record Env := mkEnv {
  now : Z;
  level : Z
}.

Definition failure (why : string) : exn :=
  DevFailed [mkDevError why "mock failure" ERR "Mock"].

Definition clamp (z : Z) : Z := Z.max 0 (Z.min 100 z).

Definition reading (attr : string) (e : Env) : DeviceAttribute :=
  mkDeviceAttribute attr (PInt (level e)) ATTR_VALID (now e).

Definition connect (devname : string) (e : Env) : result unit * Env :=
  if String.eqb devname "x/y/z"
  then (Raise (failure "API_DeviceNotDefined"), e)
  else (Ok tt, e).

Definition command (dev name : string) (args : list Arg) (e : Env)
    : result (list string) * Env :=
  let e' := mkEnv (now e + 1) (level e) in
  if String.eqb name "GetBroken"
  then (Raise (failure "API_CommandFailed"), e')
  else (Ok ["a/b/c"; str_int (level e)], e').

Definition config (attr : string) : AttributeInfo :=
  mkAttributeInfo attr DevLong
    (if String.eqb attr "level" || String.eqb attr "locked"
     then READ_WRITE else WRITE).

Definition store (value : PyObj) (e : Env) : Env :=
  match value with
  | PInt z => mkEnv (now e) (clamp z)
  | _ => e
  end.

Definition read (attr : string) (e : Env) : result DeviceAttribute * Env :=
  if String.eqb attr "stuck"
  then (Raise (failure "API_AttrValueNotSet"), e)
  else (Ok (reading attr e), e).

Definition write_read (attr : string) (value : PyObj) (e : Env)
    : result DeviceAttribute * Env :=
  if String.eqb attr "locked"
  then (Raise (failure "API_AttrNotWritable"), e)
  else (Ok (reading attr (store value e)), store value e).

Definition system : System := {|
  E := Env;
  clock := now;
  new_DeviceProxy := connect;
  command_inout := command;
  get_attribute_config := fun _ attr e => (Ok (config attr), e);
  get_attribute_config_list := fun _ attrs e => (Ok (map config attrs), e);
  get_attribute_list :=
    fun _ e => (Ok ["level"; "setpoint"; "locked"; "stuck"], e);
  read_attribute := fun _ attr e => read attr e;
  write_attribute := fun _ _ value e => (Ok tt, store value e);
  write_read_attribute := fun _ attr value e => write_read attr value e;
  str_2_obj := fun s _ => z <-? int s ;; Ok (PInt z);
  is_DevState :=
    fun ty => match ty with DevStateCode => true | _ => false end
|}.

(** The process with nothing pooled and nothing cached. *)
Definition start (e : Env) : World system := Pool.boot (T:=system) e.

(** Device names [d/e/0], [d/e/1], ... *)
Definition device (i : nat) : string := "d/e/" +:+ str_int (Z.of_nat i).

Definition devices (n : nat) : list string := map device (seq 0 n).

(** The world [w] when [d] ticks of the clock have passed. *)
Definition later (d : Z) (w : World system) : World system :=
  @mkWorld system (mkEnv (now (env w) + d) (level (env w))) (calls w)
    (created w) (device_proxies w) (_methods w).

(** The module with the cache object of the database method [name] in
    place and empty. *)
Definition with_method (name : string) (e : Env) : World system :=
  @mkWorld system e [] 0 [] {[ name := Cache.CachedMethod_init name 10 ]}.

End Mock.

(** ** The property routes *)

Module Props.

Import Bridge.

(** [args.getlist(key)]: every value of the key, none when it is absent. *)
Definition args_getlist (a : list (string * list string)) (key : string)
    : list string :=
  match find (fun item => String.eqb (fst item) key) a with
  | Some (_, vs) => vs
  | None => []
  end.

(** What a property route returns: a plain string, or the decoded
    properties that it passes to [json.dumps]. *)
Inductive Reply :=
| Body (s : string)
| Properties (result : list Codec.Property).

Section WithSystem.
Context {T : System}.

(** [dict_items] is the order in which Python 2 iterates a dict that was
    filled by the given assignments, one after the other.  The values of
    the query are unicode objects, and [encode_device_properties] gets them
    as such. *)
Variable dict_items :
  list (string * list string) -> list (string * list string).

Definition get_device_properties (request : Request)
    (domain family member : string) : M T Reply :=
  let device := device_name domain family member in
  let args := args request in
  props <-
    (match http_method request with
     | PUT | POST =>
         let props := map fst args in
         let data :=
           dict_items (map (fun prop => (prop, args_getlist args prop)) props) in
         sent <- lift (Codec.encode_device_properties device
                         (Codec.unicode_strings data)) ;;
         Cache.query Cache.db "DbPutDeviceProperty" [AList sent] ;;;
         ret props
     | GET =>
         let wildcard := args_get_default args "wildcard" "*" in
         Cache.query Cache.db "DbGetDevicePropertyList"
           [AList [device; wildcard]]
     end) ;;
  data <- Cache.query Cache.db "DbGetDeviceProperty" [AList (device :: props)] ;;
  match data with
  | [] => ret (Body EmptyString)
  | _ :: _ =>
      result <- lift (Codec.decode_device_properties data) ;;
      ret (Properties result)
  end.

Definition read_write_device_property (request : Request)
    (domain family member prop : string) : M T Reply :=
  let device := device_name domain family member in
  let args := args request in
  (match http_method request with
   | PUT | POST =>
       let value := args_getlist args "value" in
       Cache.query Cache.db "DbPutDeviceProperty"
         [AList ([device; "1"; prop; str_int (Z.of_nat (length value))]
                 ++ value)] ;;;
       ret tt
   | GET => ret tt
   end) ;;;
  data <- Cache.query Cache.db "DbGetDeviceProperty" [AList [device; prop]] ;;
  result <- lift (Codec.decode_device_properties data) ;;
  ret (Properties result).

End WithSystem.

End Props.

(** ** The other routes that need a proxy *)

Module Ext.

Import Bridge.

(** The routes below call methods of PyTango that none of the calls above
    stands for.  They get calls of their own, and a record of what each
    does to the control system. *)
Inductive XCall :=
| ReadAttributes (dev : string) (attrs : list string)
| GetAttributeConfigObject (dev attr : string)
| SetAttributeConfig (dev : string).

(** A [DeviceAttribute] with the two more fields that
    [get_device_attributes] reads. *)
Record DeviceAttributeEx := mkDeviceAttributeEx {
  da : DeviceAttribute;
  da_w_value : PyObj;
  da_has_failed : bool
}.

(** [Info] is the object that [get_attribute_config] returns, with all its
    fields; [setattr] assigns one of them. *)
Record Binding (T : System) := mkBinding {
  Info : Type;
  read_attributes :
    string -> list string -> E T -> result (list DeviceAttributeEx) * E T;
  get_attribute_config_object : string -> string -> E T -> result Info * E T;
  setattr : Info -> string -> PyObj -> result Info;
  set_attribute_config : string -> Info -> E T -> result unit * E T
}.
Arguments Info {T}.
Arguments read_attributes {T}.
Arguments get_attribute_config_object {T}.
Arguments setattr {T}.
Arguments set_attribute_config {T}.

(** A remote call on the first component of a pair. *)
Definition on_fst {S L A} (f : S -> result A * S) (e : S * L)
    : result A * (S * L) :=
  let '(r, s) := f (fst e) in (r, (s, snd e)).

(** The control system [T] with the record of the calls of this part kept
    beside its state. *)
Definition extend (T : System) : System := {|
  E := E T * list XCall;
  clock := fun e => clock T (fst e);
  new_DeviceProxy := fun devname => on_fst (new_DeviceProxy T devname);
  command_inout := fun dev name args => on_fst (command_inout T dev name args);
  get_attribute_config :=
    fun dev attr => on_fst (get_attribute_config T dev attr);
  get_attribute_config_list :=
    fun dev attrs => on_fst (get_attribute_config_list T dev attrs);
  get_attribute_list := fun dev => on_fst (get_attribute_list T dev);
  read_attribute := fun dev attr => on_fst (read_attribute T dev attr);
  write_attribute :=
    fun dev attr value => on_fst (write_attribute T dev attr value);
  write_read_attribute :=
    fun dev attr value => on_fst (write_read_attribute T dev attr value);
  str_2_obj := str_2_obj T;
  is_DevState := is_DevState T
|}.

(** One value of an attribute in the answer of [get_device_attributes];
    ["w_value"] and ["has_failed"] are keys that may be absent. *)
Record AttributeData := mkAttributeData {
  d_value : PyObj;
  d_quality : string;
  d_timestamp : Z;
  d_w_value : option PyObj;
  d_has_failed : option bool
}.

(** What these routes answer: a response of the routes above, or what they
    pass to [jsonify]; [ErrorsOf e] is [errors=str(e)]. *)
Inductive Answer :=
| Plain (r : Response)
| Result (result : list string)
| Data (data : gmap string AttributeData)
| Errors (errors : string)
| ErrorsOf (e : exn)
| State (state : string) (status : PyObj)
    (_state _status _parent _self : string).

(** [isinstance(e, PyTango.DevFailed)] *)
Definition isinstance_DevFailed (e : exn) : bool :=
  match e with
  | DevFailed _ => true
  | _ => false
  end.

(** [isinstance(e, PyTango.DeviceProxy)]: the class of the proxies is no
    exception class, and nothing that is raised is an instance of it. *)
Definition isinstance_DeviceProxy (e : exn) : bool := false.

Section WithSystem.
Context {T : System} (B : Binding T).

(** The calls of this part issued so far, oldest first. *)
Definition xcalls (w : World (extend T)) : list XCall := snd (env w).

(** A call of this part: it is recorded, and the control system moves on. *)
Definition xremote {A} (c : XCall) (f : E T -> result A * E T)
    : M (extend T) A :=
  fun w =>
    let '(r, s) := f (fst (env w)) in
    (r, @mkWorld (extend T) (s, snd (env w) ++ [c]) (calls w) (created w)
          (device_proxies w) (_methods w)).

(** The envelope that [make_error_response] makes in the world [w]. *)
Definition envelope (errors : list DevError) (w : World (extend T))
    : Response :=
  mkResponse
    (ErrorEnvelope (map stringify_error errors) "FAILURE"
       (clock (extend T) (env w)))
    500.

(** [try: m except C as e: ...] for the class that [matches] stands for. *)
Definition try_except {A} (matches : exn -> bool) (m : M (extend T) A)
    : M (extend T) (A + exn) :=
  fun w =>
    match m w with
    | (Ok a, w') => (Ok (inl a), w')
    | (Raise e, w') =>
        if matches e then (Ok (inr e), w') else (Raise e, w')
    end.

Definition proxy_read_attributes (proxy : DeviceProxy) (attrs : list string)
    : M (extend T) (list DeviceAttributeEx) :=
  xremote (ReadAttributes (dev_name proxy) attrs)
          (read_attributes B (dev_name proxy) attrs).

Definition proxy_get_attribute_config_object (proxy : DeviceProxy)
    (attr : string) : M (extend T) (Info B) :=
  xremote (GetAttributeConfigObject (dev_name proxy) attr)
          (get_attribute_config_object B (dev_name proxy) attr).

Definition proxy_set_attribute_config (proxy : DeviceProxy) (info : Info B)
    : M (extend T) unit :=
  xremote (SetAttributeConfig (dev_name proxy))
          (set_attribute_config B (dev_name proxy) info).

(** [state, status = ...]: unpacking wants exactly two values. *)
Definition unpack2 {A} (l : list A) : result (A * A) :=
  match l with
  | [a; b] => Ok (a, b)
  | _ => Raise ValueError
  end.

Definition get_device_state (domain family member : string)
    : M (extend T) Answer :=
  let device := device_name domain family member in
  r <- try_DevFailed (Pool.get_device_proxy device) ;;
  match r with
  | inr e => r <- make_error_response e ;; ret (Plain r)
  | inl proxy =>
      readings <- proxy_read_attributes proxy ["State"; "Status"] ;;
      pair <- lift (unpack2 readings) ;;
      let '(state, status) := pair in
      ret (State (str_PyObj (da_value (da state))) (da_value (da status))
             ("/devices/" +:+ device +:+ "/attributes/State")
             ("/devices/" +:+ device +:+ "/attributes/Status")
             ("/devices/" +:+ device)
             ("/devices/" +:+ device +:+ "/state"))
  end.

(** [attrs.items()]: each key with its first value. *)
Fixpoint args_items (a : list (string * list string))
    : result (list (string * string)) :=
  match a with
  | [] => Ok []
  | (key, values) :: rest =>
      v <-? index values 0 ;;
      items <-? args_items rest ;;
      Ok ((key, v) :: items)
  end.

(** The body of the loop of [get_device_attributes] over [results]. *)
Definition attribute_data (attr : DeviceAttributeEx) : AttributeData :=
  mkAttributeData (da_value (da attr))
    (str_AttrQuality (da_quality (da attr))) (da_time (da attr))
    (match da_w_value attr with
     | PNone => None
     | w_value => Some w_value
     end)
    (if da_has_failed attr then Some true else None).

Definition get_device_attributes (request : Request)
    (domain family member : string) : M (extend T) Answer :=
  let devname := device_name domain family member in
  r <- try_DevFailed (Pool.get_device_proxy devname) ;;
  match r with
  | inr e => r <- make_error_response e ;; ret (Plain r)
  | inl device =>
      let attrs := args request in
      match attrs with
      | [] =>
          attributes <- proxy_get_attribute_list device ;;
          ret (Result (map (fun attr => "/device/" +:+ devname +:+ "/" +:+ attr)
                         attributes))
      | _ :: _ =>
          items <- lift (args_items attrs) ;;
          let attributes := map fst items in
          let values := map snd items in
          if negb (existsb (fun v => negb (String.eqb v EmptyString)) values)
          then
            results <- proxy_read_attributes device attributes ;;
            ret (Data (fold_left
                         (fun data attr =>
                            <[da_name (da attr) := attribute_data attr]> data)
                         results ∅))
          else ret (Errors "...")
      end
  end.

(** The loop of [post_device_attribute_info] over [config.items()]. *)
Fixpoint set_params (info : Info B) (items : list (string * string))
    : result (Info B) :=
  match items with
  | [] => Ok info
  | (param, value) :: rest =>
      info' <-?
        (if String.eqb param "max_dim_x" || String.eqb param "max_dim_y"
         then n <-? int value ;; setattr B info param (PInt n)
         else setattr B info param (PStr value)) ;;
      set_params info' rest
  end.

Definition post_device_attribute_info (request : Request)
    (domain family member attribute : string) : M (extend T) Answer :=
  let config := args request in
  let device := device_name domain family member in
  r <- try_except isinstance_DeviceProxy (Pool.get_device_proxy device) ;;
  match r with
  | inr e => ret (ErrorsOf e)
  | inl proxy =>
      r <- try_except isinstance_DevFailed
             (info <- proxy_get_attribute_config_object proxy attribute ;;
              items <- lift (args_items config) ;;
              info <- lift (set_params info items) ;;
              proxy_set_attribute_config proxy info ;;;
              ret (Data ∅)) ;;
      match r with
      | inl answer => ret answer
      | inr (DevFailed errors) =>
          r <- make_error_response errors ;; ret (Plain r)
      | inr e => raise e
      end
  end.

End WithSystem.

End Ext.

(** ** Two more small systems to run the routes against *)

Module MockDb.

(** A database that keeps one flat sequence of properties: what was put
    last.  It refuses to store anything for the device ["x/y/z"], so named
    at the head of the sequence. *)
Definition command (dev name : string) (args : list Arg) (e : list string)
    : result (list string) * list string :=
  if String.eqb name "DbPutDeviceProperty" then
    match args with
    | [AList (device :: sequence)] =>
        if String.eqb device "x/y/z"
        then (Raise (Mock.failure "API_DeviceNotDefined"), e)
        else (Ok [], device :: sequence)
    | _ => (Raise TypeError, e)
    end
  else if String.eqb name "DbGetDevicePropertyList" then
    (match Codec.decode_device_properties e with
     | Ok props => Ok (map Codec.name props)
     | Raise _ => Ok []
     end, e)
  else (Ok e, e).

Definition unsupported {A} (e : list string) : result A * list string :=
  (Raise (Mock.failure "API_NotSupported"), e).

Definition system : System := {|
  E := list string;
  clock := fun _ => 0;
  new_DeviceProxy := fun _ e => (Ok tt, e);
  command_inout := command;
  get_attribute_config := fun _ _ => unsupported;
  get_attribute_config_list := fun _ _ => unsupported;
  get_attribute_list := fun _ => unsupported;
  read_attribute := fun _ _ => unsupported;
  write_attribute := fun _ _ _ => unsupported;
  write_read_attribute := fun _ _ _ => unsupported;
  str_2_obj := fun s _ => Ok (PStr s);
  is_DevState := fun _ => false
|}.

(** The process with nothing pooled or cached, and [e] in the database. *)
Definition start (e : list string) : World system := Pool.boot (T:=system) e.

(** A dict is iterated in the order it was filled in. *)
Definition in_order (items : list (string * list string))
    : list (string * list string) := items.

End MockDb.

Module MockExt.

Import Ext.

(** The device of [Mock] seen through the other methods: every attribute
    can be read at once, ["stuck"] with [has_failed] set; the descriptor of
    any attribute but ["missing"] can be had, as the list of the
    assignments made to it, and be written back. *)
Definition read_all (attrs : list string) (e : Mock.Env)
    : result (list DeviceAttributeEx) * Mock.Env :=
  (Ok (map (fun attr =>
              mkDeviceAttributeEx (Mock.reading attr e) PNone
                (String.eqb attr "stuck"))
         attrs), e).

Definition descriptor (attr : string) (e : Mock.Env)
    : result (list (string * PyObj)) * Mock.Env :=
  if String.eqb attr "missing"
  then (Raise (Mock.failure "API_AttrNotFound"), e)
  else (Ok [], e).

Definition binding : Binding Mock.system :=
  @mkBinding Mock.system (list (string * PyObj))
    (fun _ attrs e => read_all attrs e)
    (fun _ attr e => descriptor attr e)
    (fun info param value => Ok (info ++ [(param, value)]))
    (fun _ _ e => (Ok tt, e)).

(** The process with nothing pooled or cached and no call made. *)
Definition start (e : Mock.Env) : World (extend Mock.system) :=
  Pool.boot (T:=extend Mock.system) (e, []).

End MockExt.

(** * Properties *)

(** ** Python essentials *)

Module PyFacts.

Lemma lstrip_nospace s : nospace s = true -> lstrip s = s.
Proof.
  destruct s as [|c r]; simpl; [reflexivity|].
  intros H. apply andb_prop in H as [H _].
  apply negb_true_iff in H. now rewrite H.
Qed.

Lemma rstrip_nospace s : nospace s = true -> rstrip s = s.
Proof.
  induction s as [|c r IH]; simpl; [reflexivity|].
  intros H. apply andb_prop in H as [Hc Hr].
  apply negb_true_iff in Hc. rewrite (IH Hr), Hc.
  now destruct r.
Qed.

Lemma strip_nospace s : nospace s = true -> strip s = s.
Proof.
  intros H. unfold strip. rewrite (rstrip_nospace _ H). now apply lstrip_nospace.
Qed.

Lemma nospace_uint d : nospace (NilEmpty.string_of_uint d) = true.
Proof. induction d; simpl; auto. Qed.

Lemma digits_uint d :
  d <> Nil -> digits (NilEmpty.string_of_uint d) = Ok (Z.of_uint d).
Proof.
  intros Hd. unfold digits. rewrite NilEmpty.usu.
  destruct d; simpl; congruence.
Qed.

Lemma to_uint_nonnil p : Pos.to_uint p <> Nil.
Proof.
  intros H. pose proof (DecimalPos.Unsigned.of_to p) as E.
  rewrite H in E. discriminate E.
Qed.

Lemma of_uint_to_uint p : Z.of_uint (Pos.to_uint p) = Z.pos p.
Proof.
  unfold Z.of_uint. now rewrite DecimalPos.Unsigned.of_to.
Qed.

Lemma int_str_int z : int (str_int z) = Ok z.
Proof.
  unfold int, str_int. destruct z as [|p|p]; simpl Z.to_int.
  - reflexivity.
  - simpl NilEmpty.string_of_int.
    rewrite strip_nospace by apply nospace_uint.
    pose proof (to_uint_nonnil p) as Hn.
    pose proof (digits_uint _ Hn) as Hd. rewrite of_uint_to_uint in Hd.
    destruct (Pos.to_uint p) eqn:E; simpl in *; congruence.
  - simpl NilEmpty.string_of_int.
    rewrite strip_nospace by (simpl; apply nospace_uint).
    rewrite digits_uint by apply to_uint_nonnil.
    simpl. now rewrite of_uint_to_uint.
Qed.

Lemma index_app_at {A} (pre : list A) x rest :
  index (pre ++ x :: rest) (Z.of_nat (length pre)) = Ok x.
Proof.
  unfold index.
  assert ((Z.of_nat (length pre) <? 0) = false) as -> by lia.
  rewrite length_app. simpl length.
  assert ((0 <=? Z.of_nat (length pre)) &&
          (Z.of_nat (length pre) <? Z.of_nat (length pre + S (length rest))%nat)
          = true) as -> by (apply andb_true_intro; split; lia).
  rewrite Nat2Z.id, lookup_app_r by lia.
  now rewrite Nat.sub_diag.
Qed.

Lemma index_end {A} (l : list A) (i : Z) :
  Z.of_nat (length l) <= i -> index l i = Raise IndexError.
Proof.
  intros H. unfold index.
  assert ((i <? 0) = false) as -> by lia.
  assert ((0 <=? i) && (i <? Z.of_nat (length l)) = false) as ->
    by (apply andb_false_intro2; lia).
  reflexivity.
Qed.

Lemma slice_nonneg {A} (l : list A) (a b : Z) :
  0 <= a <= b ->
  slice l a b = take (Z.to_nat (b - a)) (drop (Z.to_nat a) l).
Proof.
  intros [Ha Hb]. unfold slice, clip.
  assert ((a <? 0) = false) as -> by lia.
  assert ((b <? 0) = false) as -> by lia.
  set (n := Z.of_nat (length l)).
  destruct (Z.le_gt_cases a n) as [Han|Han].
  - rewrite (Z.min_l a n) by lia.
    destruct (Z.le_gt_cases b n) as [Hbn|Hbn].
    + now rewrite (Z.min_l b n) by lia.
    + rewrite (Z.min_r b n) by lia.
      rewrite !take_ge; [reflexivity| |]; rewrite length_drop; lia.
  - rewrite (Z.min_r a n), (Z.min_r b n) by lia.
    rewrite !drop_ge by lia. now rewrite !take_nil.
Qed.

Lemma slice_app_at {A} (pre vs rest : list A) :
  slice (pre ++ vs ++ rest) (Z.of_nat (length pre))
        (Z.of_nat (length pre) + Z.of_nat (length vs)) = vs.
Proof.
  rewrite slice_nonneg by lia.
  rewrite Nat2Z.id, drop_app_length.
  replace (Z.to_nat _) with (length vs) by lia.
  apply take_app_length.
Qed.

Lemma slice_short {A} (pre vs : list A) (c : Z) :
  Z.of_nat (length vs) <= c ->
  slice (pre ++ vs) (Z.of_nat (length pre)) (Z.of_nat (length pre) + c) = vs.
Proof.
  intros H. rewrite slice_nonneg by lia.
  rewrite Nat2Z.id, drop_app_length.
  apply take_ge. lia.
Qed.

End PyFacts.

(** ** The property wire codec *)

Module CodecFacts.
Import Codec PyFacts.

Lemma str_plain v : plain v = true -> str v = Ok (text v).
Proof. destruct v; simpl; [reflexivity|]. now intros ->. Qed.

Lemma str_not_plain v : plain v = false -> str v = Raise UnicodeEncodeError.
Proof. destruct v; simpl; [discriminate|]. now intros ->. Qed.

Lemma strs_plain values :
  forallb plain values = true -> strs values = Ok (map text values).
Proof.
  induction values as [|v values IH]; simpl; [reflexivity|].
  intros H. apply andb_prop in H as [Hv Hvs].
  rewrite (str_plain v Hv). simpl. now rewrite IH.
Qed.

Lemma strs_not_plain values :
  forallb plain values = false -> strs values = Raise UnicodeEncodeError.
Proof.
  induction values as [|v values IH]; simpl; [discriminate|].
  destruct (plain v) eqn:Hv; simpl.
  - intros Hvs. rewrite (str_plain v Hv). simpl. now rewrite IH.
  - intros _. now rewrite (str_not_plain v Hv).
Qed.

Lemma encode_loop_flat data : forall args,
  encodable data = true -> encode_loop data args = Ok (args ++ flat data).
Proof.
  induction data as [|[prop vs] data IH]; intros args; simpl.
  - intros _. now rewrite app_nil_r.
  - intros H. apply andb_prop in H as [Hvs Hdata].
    rewrite (strs_plain vs Hvs). simpl. rewrite IH by assumption.
    unfold flat. simpl. unfold item_flat at 2. simpl.
    now rewrite <- app_assoc.
Qed.

Lemma encode_loop_raise data : forall args,
  encodable data = false -> encode_loop data args = Raise UnicodeEncodeError.
Proof.
  induction data as [|[prop vs] data IH]; intros args; simpl; [discriminate|].
  destruct (forallb plain vs) eqn:Hvs; simpl.
  - intros Hdata. rewrite (strs_plain vs Hvs). simpl. now apply IH.
  - intros _. now rewrite (strs_not_plain vs Hvs).
Qed.

Lemma encode_flat device data :
  encodable data = true ->
  encode_device_properties device data =
  Ok ([device; str_int (Z.of_nat (length data))] ++ flat data).
Proof. apply encode_loop_flat. Qed.

Lemma encode_raise device data :
  encodable data = false ->
  encode_device_properties device data = Raise UnicodeEncodeError.
Proof. apply encode_loop_raise. Qed.

(** An encoding that was made is the flat sequence. *)
Lemma encode_Ok device data sequence :
  encode_device_properties device data = Ok sequence ->
  encodable data = true /\
  sequence = [device; str_int (Z.of_nat (length data))] ++ flat data.
Proof.
  destruct (encodable data) eqn:H.
  - rewrite (encode_flat device data H). intros [= <-]. now split.
  - now rewrite (encode_raise device data H).
Qed.

Lemma encodable_app d1 d2 :
  encodable (d1 ++ d2) = encodable d1 && encodable d2.
Proof. apply forallb_app. Qed.

Lemma text_Str vs : map text (map Str vs) = vs.
Proof. induction vs as [|v vs IH]; simpl; [reflexivity|]. now rewrite IH. Qed.

Lemma chars_code_points s : chars (code_points s) = s.
Proof.
  unfold chars, code_points. rewrite map_map.
  rewrite (map_ext _ (fun c => c)) by apply ascii_N_embedding.
  rewrite map_id. apply string_of_list_ascii_of_string.
Qed.

Lemma text_unicode vs : map text (map unicode vs) = vs.
Proof.
  induction vs as [|v vs IH]; simpl; [reflexivity|].
  now rewrite chars_code_points, IH.
Qed.

(** Whether a dict can be encoded does not depend on its order. *)
Lemma encodable_Permutation d1 d2 :
  d1 ≡ₚ d2 -> encodable d1 = encodable d2.
Proof.
  induction 1 as [|x l l' _ IH|x y l|l l' l'' _ IH1 _ IH2]; simpl.
  - reflexivity.
  - now rewrite IH.
  - now destruct (forallb plain (snd x)), (forallb plain (snd y)).
  - unfold encodable in *. congruence.
Qed.

Lemma encodable_byte_strings data : encodable (byte_strings data) = true.
Proof.
  induction data as [|[k vs] data IH]; simpl; [reflexivity|].
  rewrite IH, andb_true_r. now induction vs.
Qed.

Lemma length_flat_cons item data :
  length (flat (item :: data)) = (2 + length (snd item) + length (flat data))%nat.
Proof. unfold flat. simpl. rewrite length_app, length_map. simpl. lia. Qed.

(** One iteration of the loop over a property whose values are all
    present. *)
Lemma decode_loop_full n pre k c vs rest props :
  int c = Ok (Z.of_nat (length vs)) ->
  decode_loop (S n) (pre ++ k :: c :: vs ++ rest)
    (Z.of_nat (length pre)) props =
  decode_loop n (pre ++ k :: c :: vs ++ rest)
    (Z.of_nat (length pre) + 2 + Z.of_nat (length vs))
    (props ++ [mkProperty k vs]).
Proof.
  intros Hc. simpl decode_loop.
  rewrite index_app_at. simpl rbind.
  replace (pre ++ k :: c :: vs ++ rest) with ((pre ++ [k]) ++ c :: vs ++ rest)
    by now rewrite <- app_assoc.
  replace (Z.of_nat (length pre) + 1) with (Z.of_nat (length (pre ++ [k])))
    by (rewrite length_app; simpl; lia).
  rewrite index_app_at. simpl rbind.
  rewrite Hc. simpl rbind.
  replace ((pre ++ [k]) ++ c :: vs ++ rest) with ((pre ++ [k; c]) ++ vs ++ rest)
    by now rewrite <- !app_assoc.
  replace (Z.of_nat (length pre) + 2)
    with (Z.of_nat (length (pre ++ [k; c])))
    by (rewrite !length_app; simpl; lia).
  now rewrite slice_app_at.
Qed.

Lemma decode_loop_step n pre k vs rest props :
  decode_loop (S n) (pre ++ item_flat (k, vs) ++ rest)
    (Z.of_nat (length pre)) props =
  decode_loop n (pre ++ item_flat (k, vs) ++ rest)
    (Z.of_nat (length (pre ++ item_flat (k, vs))))
    (props ++ [mkProperty k (map text vs)]).
Proof.
  unfold item_flat. simpl fst. simpl snd.
  change (pre ++ (k :: str_int (Z.of_nat (length vs)) :: map text vs) ++ rest)
    with (pre ++ k :: str_int (Z.of_nat (length vs)) :: map text vs ++ rest).
  rewrite decode_loop_full by (rewrite length_map; apply int_str_int).
  f_equal. rewrite !length_app. simpl. lia.
Qed.

(** The loop walks over every property that is present in full. *)
Lemma decode_loop_flat data : forall n pre rest props,
  decode_loop (length data + n) (pre ++ flat data ++ rest)
    (Z.of_nat (length pre)) props =
  decode_loop n (pre ++ flat data ++ rest)
    (Z.of_nat (length (pre ++ flat data)))
    (props ++ properties_of data).
Proof.
  induction data as [|[k vs] data IH]; intros n pre rest props.
  - simpl. now rewrite !app_nil_r.
  - change (flat ((k, vs) :: data)) with (item_flat (k, vs) ++ flat data).
    rewrite <- (app_assoc (item_flat (k, vs))).
    change (length ((k, vs) :: data) + n)%nat with (S (length data + n)).
    rewrite decode_loop_step.
    rewrite (app_assoc pre (item_flat (k, vs))).
    rewrite IH. f_equal.
    + now rewrite <- !app_assoc.
    + now rewrite <- !app_assoc.
Qed.

Lemma decode_header device count body :
  decode_device_properties (device :: count :: body) =
  (n <-? int count ;; decode_loop (Z.to_nat n) (device :: count :: body) 2 []).
Proof.
  unfold decode_device_properties.
  change (index (device :: count :: body) 1)
    with (index ([device] ++ count :: body) (Z.of_nat (length [device]))).
  now rewrite index_app_at.
Qed.

(** Decoding what was encoded, whatever follows it. *)
Lemma decode_encode_app device data sequence extra :
  encode_device_properties device data = Ok sequence ->
  decode_device_properties (sequence ++ extra) = Ok (properties_of data).
Proof.
  intros Henc. apply encode_Ok in Henc as [_ ->].
  simpl app. rewrite decode_header, int_str_int.
  simpl rbind. rewrite Nat2Z.id.
  pose proof (decode_loop_flat data 0
                [device; str_int (Z.of_nat (length data))] extra []) as H.
  rewrite Nat.add_0_r in H. simpl app in H. simpl length in H at 2.
  exact H.
Qed.

Lemma flat_app d1 d2 : flat (d1 ++ d2) = flat d1 ++ flat d2.
Proof. unfold flat. now rewrite map_app, concat_app. Qed.

Lemma length_encode device data sequence :
  encode_device_properties device data = Ok sequence ->
  length sequence = (2 + length (flat data))%nat.
Proof. intros H. now apply encode_Ok in H as [_ ->]. Qed.

(** One iteration over a last property whose values stop early: the slice
    takes what is there. *)
Lemma decode_loop_short n pre k c cz vs props :
  int c = Ok cz ->
  Z.of_nat (length vs) <= cz ->
  decode_loop (S n) (pre ++ k :: c :: vs) (Z.of_nat (length pre)) props =
  decode_loop n (pre ++ k :: c :: vs) (Z.of_nat (length pre) + 2 + cz)
    (props ++ [mkProperty k vs]).
Proof.
  intros Hc Hle. simpl decode_loop.
  rewrite index_app_at. simpl rbind.
  replace (pre ++ k :: c :: vs) with ((pre ++ [k]) ++ c :: vs)
    by now rewrite <- app_assoc.
  replace (Z.of_nat (length pre) + 1) with (Z.of_nat (length (pre ++ [k])))
    by (rewrite length_app; simpl; lia).
  rewrite index_app_at. simpl rbind.
  rewrite Hc. simpl rbind.
  replace ((pre ++ [k]) ++ c :: vs) with ((pre ++ [k; c]) ++ vs)
    by now rewrite <- !app_assoc.
  replace (Z.of_nat (length pre) + 2)
    with (Z.of_nat (length (pre ++ [k; c])))
    by (rewrite !length_app; simpl; lia).
  now rewrite slice_short.
Qed.

(** The loop stops with [IndexError] when it starts at or after the end. *)
Lemma decode_loop_end n data pos props :
  Z.of_nat (length data) <= pos ->
  decode_loop (S n) data pos props = Raise IndexError.
Proof. intros H. simpl. now rewrite index_end. Qed.

Lemma decode_loop_name_only n pre k props :
  decode_loop (S n) (pre ++ [k]) (Z.of_nat (length pre)) props =
  Raise IndexError.
Proof.
  simpl. rewrite index_app_at. simpl rbind.
  rewrite index_end; [reflexivity|]. rewrite length_app. simpl. lia.
Qed.

Lemma decode_cut_inside device P1 k vs P2 head full (j : nat) :
  encode_device_properties device P1 = Ok head ->
  encode_device_properties device (P1 ++ (k, vs) :: P2) = Ok full ->
  (j < 2 + length vs)%nat ->
  decode_device_properties (take (length head + j) full) =
  match P2 with
  | [] => if (2 <=? j)%nat
          then Ok (properties_of P1 ++
                   [mkProperty k (take (j - 2) (map text vs))])
          else Raise IndexError
  | _ :: _ => Raise IndexError
  end.
Proof.
  intros Hhead Hfull Hj.
  rewrite (length_encode _ _ _ Hhead).
  apply encode_Ok in Hfull as [_ ->]. rewrite flat_app.
  set (c := str_int (Z.of_nat (length (P1 ++ (k, vs) :: P2)))).
  change (flat ((k, vs) :: P2)) with (item_flat (k, vs) ++ flat P2).
  replace (take _ _)
    with ([device; c] ++ flat P1 ++ take j (item_flat (k, vs))).
  2:{ rewrite !(app_assoc [device; c]).
      rewrite (take_app_add' ([device; c] ++ flat P1))
        by (rewrite length_app; reflexivity).
      now rewrite take_app_le
        by (unfold item_flat; simpl; rewrite length_map; lia). }
  assert (int c = Ok (Z.of_nat (length P1 + S (length P2)))) as Hc
    by (unfold c; rewrite int_str_int, length_app; reflexivity).
  clearbody c.
  simpl app. rewrite decode_header, Hc.
  simpl rbind. rewrite Nat2Z.id.
  pose proof (decode_loop_flat P1 (S (length P2)) [device; c]
                (take j (item_flat (k, vs))) []) as H.
  simpl app in H. change (Z.of_nat (length [device; c])) with 2 in H.
  rewrite H. clear H.
  unfold item_flat. simpl fst. simpl snd.
  set (cv := str_int (Z.of_nat (length vs))).
  destruct j as [|[|j]].
  - simpl take. rewrite app_nil_r.
    rewrite decode_loop_end by (simpl; lia).
    now destruct P2.
  - simpl take.
    change (device :: c :: flat P1 ++ [k]) with ((device :: c :: flat P1) ++ [k]).
    rewrite decode_loop_name_only. now destruct P2.
  - simpl take. simpl Nat.leb. rewrite Nat.sub_0_r.
    change (device :: c :: flat P1 ++ k :: cv :: take j (map text vs))
      with ((device :: c :: flat P1) ++ k :: cv :: take j (map text vs)).
    rewrite (decode_loop_short _ _ _ _ (Z.of_nat (length vs)));
      [|apply int_str_int|rewrite length_take, length_map; lia].
    destruct P2 as [|p P2]; [reflexivity|].
    apply decode_loop_end.
    rewrite length_app. simpl length. rewrite length_take, length_map. lia.
Qed.

(** A sequence that stops before the count field. *)
Lemma decode_no_count data :
  (length data < 2)%nat -> decode_device_properties data = Raise IndexError.
Proof.
  intros H. unfold decode_device_properties.
  rewrite index_end; [reflexivity|lia].
Qed.

(** C3 as stated fails: the values of a query are unicode objects, and
    for a value with a character that is not ASCII, here the [e] with an
    acute accent of code point 233 that ends [u"caf\xe9"], [str] raises
    and nothing is encoded. *)
Lemma encode_unicode_value :
  let value := Unicode [99; 97; 102; 233]%N in
  str value = Raise UnicodeEncodeError /\
  encode_device_properties "a/b/c" [("Description", [value])] =
    Raise UnicodeEncodeError.
Proof. vm_compute. split; reflexivity. Qed.

(** C3, amended: for a dict whose values are all byte strings or unicode
    objects of ASCII characters, [encode_device_properties] returns a
    sequence for any device name, and decoding it gives the properties of
    the dict, each name with the characters of its own values in their
    order; the same holds whatever follows the encoded sequence, so no
    property takes more than its declared count.  For a dict with any
    other value, encoding raises [UnicodeEncodeError]. *)
Theorem decode_encode device data :
  (encodable data = true ->
   exists sequence,
     encode_device_properties device data = Ok sequence /\
     decode_device_properties sequence = Ok (properties_of data) /\
     (forall extra,
        decode_device_properties (sequence ++ extra) =
          Ok (properties_of data))) /\
  (encodable data = false ->
   encode_device_properties device data = Raise UnicodeEncodeError).
Proof.
  split.
  - intros H. eexists. split; [now apply encode_flat|]. split.
    + rewrite <- (app_nil_r (_ ++ flat data)).
      apply (decode_encode_app device data). now apply encode_flat.
    + intros extra.
      apply (decode_encode_app device data). now apply encode_flat.
  - apply encode_raise.
Qed.

Lemma decode_encode_witness :
  let data := [("Description", [unicode "a calibrated sensor"]);
               ("Unit", [Str (chars [99; 97; 102; 233]%N); unicode EmptyString])] in
  let bad := [("Unit", [Unicode [99; 97; 102; 233]%N])] in
  (encodable data = true /\
   exists sequence,
     encode_device_properties "a/b/c" data = Ok sequence /\
     decode_device_properties sequence = Ok (properties_of data) /\
     (forall extra,
        decode_device_properties (sequence ++ extra) =
          Ok (properties_of data))) /\
  encodable bad = false /\
  encode_device_properties "a/b/c" bad = Raise UnicodeEncodeError.
Proof.
  intros data bad. split; [split|split].
  - reflexivity.
  - apply (proj1 (decode_encode "a/b/c" data)). reflexivity.
  - reflexivity.
  - apply (proj2 (decode_encode "a/b/c" bad)). reflexivity.
Defined.

(** C4 as stated fails: the sequence declares three values for ["P"] and
    holds one, and decoding returns the property with that one value. *)
Lemma decode_truncates :
  let full := ["a/b/c"; "1"; "P"; "3"; "x"; "y"; "z"] in
  let data := take 5 full in
  encode_device_properties "a/b/c" [("P", [Str "x"; Str "y"; Str "z"])] =
    Ok full /\
  data = ["a/b/c"; "1"; "P"; "3"; "x"] /\
  decode_device_properties data = Ok [mkProperty "P" ["x"]].
Proof. vm_compute. repeat split. Qed.

(** C4, amended: a sequence with fewer than two elements raises
    [IndexError]; an encoded sequence cut inside the property [(k, vs)],
    [j] elements into it, raises [IndexError] when the cut takes the name
    or the count of the property, or when another property is declared
    after it; when the property is the last one and only values are
    missing, decoding returns every property, the last with the values
    that are there.  [head] is the encoding of the properties before
    [(k, vs)], [full] the encoding of all of them. *)
Theorem decode_cut :
  (forall data,
     (length data < 2)%nat ->
     decode_device_properties data = Raise IndexError) /\
  (forall device P1 k vs P2 head full (j : nat),
     encode_device_properties device P1 = Ok head ->
     encode_device_properties device (P1 ++ (k, vs) :: P2) = Ok full ->
     (j < 2 + length vs)%nat ->
     decode_device_properties (take (length head + j) full) =
     match P2 with
     | [] => if (2 <=? j)%nat
             then Ok (properties_of P1 ++
                      [mkProperty k (take (j - 2) (map text vs))])
             else Raise IndexError
     | _ :: _ => Raise IndexError
     end).
Proof.
  split.
  - apply decode_no_count.
  - apply decode_cut_inside.
Qed.

Lemma decode_cut_witness :
  (length ["a/b/c"] < 2)%nat /\
  decode_device_properties ["a/b/c"] = Raise IndexError /\
  encode_device_properties "a/b/c" [] = Ok ["a/b/c"; "0"] /\
  encode_device_properties "a/b/c"
    ([] ++ [("P", [Str "x"; Str "y"; Str "z"])]) =
    Ok ["a/b/c"; "1"; "P"; "3"; "x"; "y"; "z"] /\
  (3 < 2 + length [Str "x"; Str "y"; Str "z"])%nat /\
  decode_device_properties
    (take (length ["a/b/c"; "0"] + 3)
       ["a/b/c"; "1"; "P"; "3"; "x"; "y"; "z"]) =
  Ok [mkProperty "P" ["x"]].
Proof.
  destruct decode_cut as [Hshort Hcut].
  split; [simpl; lia|].
  split; [apply Hshort; simpl; lia|].
  split; [reflexivity|].
  split; [reflexivity|].
  split; [simpl; lia|].
  apply (Hcut "a/b/c" [] "P" [Str "x"; Str "y"; Str "z"] []
           ["a/b/c"; "0"] ["a/b/c"; "1"; "P"; "3"; "x"; "y"; "z"] 3%nat).
  - reflexivity.
  - reflexivity.
  - simpl. lia.
Defined.

(** C9, amended: the dict of the scenario, listed in the order of the
    scenario, is encoded as the sequence of the scenario, be its values
    byte strings or unicode objects, and decoding that whole sequence,
    device name included, gives both properties. *)
Theorem scenario_encode_decode :
  let data := [("Description", ["a calibrated sensor"]);
               ("Limits", ["0"; "100"])] in
  let sequence := ["a/b/c"; "2"; "Description"; "1"; "a calibrated sensor";
                   "Limits"; "2"; "0"; "100"] in
  encode_device_properties "a/b/c" (byte_strings data) = Ok sequence /\
  encode_device_properties "a/b/c" (unicode_strings data) = Ok sequence /\
  decode_device_properties sequence =
    Ok [mkProperty "Description" ["a calibrated sensor"];
        mkProperty "Limits" ["0"; "100"]].
Proof. vm_compute. split; [|split]; reflexivity. Qed.

(** C9 as stated fails: with the device name taken off, the sequence
    starts at the count, [data[1]] is the first property name, and
    decoding raises [ValueError]. *)
Lemma scenario_decode_tail :
  let sequence := ["a/b/c"; "2"; "Description"; "1"; "a calibrated sensor";
                   "Limits"; "2"; "0"; "100"] in
  encode_device_properties "a/b/c"
    (unicode_strings [("Description", ["a calibrated sensor"]);
                      ("Limits", ["0"; "100"])]) = Ok sequence /\
  tail sequence = ["2"; "Description"; "1"; "a calibrated sensor";
                   "Limits"; "2"; "0"; "100"] /\
  decode_device_properties (tail sequence) = Raise ValueError.
Proof. vm_compute. split; [|split]; reflexivity. Qed.

End CodecFacts.

(** ** The connection pool *)

Module PoolFacts.
Import Pool.
Local Open Scope nat_scope.

Lemma eqb_key (a b : string) : String.eqb a b = bool_decide (a = b).
Proof.
  destruct (String.eqb_spec a b) as [->|Hne].
  - now rewrite bool_decide_eq_true_2.
  - now rewrite bool_decide_eq_false_2.
Qed.

Lemma contains_keys (d : OrderedDict) key :
  contains d key = true <-> key ∈ keys d.
Proof.
  unfold contains, keys. induction d as [|[k v] d IH]; simpl.
  - split; [discriminate|]. intros H. inversion H.
  - rewrite orb_true_iff, IH, elem_of_cons, String.eqb_eq. intuition congruence.
Qed.

Lemma contains_false (d : OrderedDict) key :
  contains d key = false <-> key ∉ keys d.
Proof.
  rewrite <- contains_keys. destruct (contains d key); naive_solver.
Qed.

Lemma getitem_elem (d : OrderedDict) key value :
  NoDup (keys d) -> (key, value) ∈ d -> getitem d key = Ok value.
Proof.
  unfold getitem, keys. induction d as [|[k v] d IH]; simpl; intros Hnd Hin.
  - inversion Hin.
  - apply NoDup_cons in Hnd as [Hk Hnd].
    apply elem_of_cons in Hin as [Heq|Hin].
    + inversion Heq; subst. now rewrite String.eqb_refl.
    + destruct (String.eqb_spec k key) as [->|Hne]; [|now apply IH].
      exfalso. apply Hk. apply list_elem_of_fmap. now exists (key, value).
Qed.

Lemma delitem_head k v (d : OrderedDict) :
  NoDup (keys ((k, v) :: d)) -> delitem ((k, v) :: d) k = Ok d.
Proof.
  intros Hnd. apply NoDup_cons in Hnd as [Hk Hnd].
  unfold delitem. simpl. rewrite String.eqb_refl. simpl. f_equal.
  clear Hnd. induction d as [|[k' v'] d IH]; [reflexivity|].
  simpl in *. apply not_elem_of_cons in Hk as [Hne Hk].
  destruct (String.eqb_spec k' k) as [->|_]; [congruence|].
  simpl. now rewrite IH.
Qed.

Lemma setitem_new (d : OrderedDict) key value :
  key ∉ keys d -> setitem d key value = d ++ [(key, value)].
Proof.
  induction d as [|[k v] d IH]; simpl; intros Hk; [reflexivity|].
  apply not_elem_of_cons in Hk as [Hne Hk].
  destruct (String.eqb_spec k key) as [->|_]; [congruence|].
  now rewrite IH.
Qed.

Section WithSystem.
Context {T : System}.

Lemma get_hit (w : World T) devname proxy :
  NoDup (keys (device_proxies w)) ->
  (devname, proxy) ∈ device_proxies w ->
  get_device_proxy devname w = (Ok proxy, w).
Proof.
  intros Hnd Hin. unfold get_device_proxy, bind, get_device_proxies, lift.
  assert (contains (device_proxies w) devname = true) as ->.
  { apply contains_keys. apply list_elem_of_fmap. now exists (devname, proxy). }
  now rewrite (getitem_elem _ _ _ Hnd Hin).
Qed.

Lemma get_miss_fail (w : World T) devname e env' :
  devname ∉ keys (device_proxies w) ->
  new_DeviceProxy T devname (env w) = (Raise e, env') ->
  get_device_proxy devname w =
  (Raise e, mkWorld env' (calls w ++ [NewDeviceProxy devname]) (created w)
              (device_proxies w) (_methods w)).
Proof.
  intros Hk Hnew. apply contains_false in Hk.
  unfold get_device_proxy, bind, get_device_proxies, DeviceProxy_init, bind,
    remote. rewrite Hk, Hnew. reflexivity.
Qed.

Lemma get_miss_ok (w : World T) devname env' :
  NoDup (keys (device_proxies w)) ->
  devname ∉ keys (device_proxies w) ->
  new_DeviceProxy T devname (env w) = (Ok tt, env') ->
  let proxy := mkDeviceProxy devname (created w) in
  get_device_proxy devname w =
  (Ok proxy, mkWorld env' (calls w ++ [NewDeviceProxy devname])
               (S (created w))
               (push_entry (device_proxies w) (devname, proxy))
               (_methods w)).
Proof.
  intros Hnd Hk Hnew proxy. pose proof Hk as Hc. apply contains_false in Hc.
  unfold get_device_proxy, bind, get_device_proxies, DeviceProxy_init, bind,
    remote, fresh, ret, set_device_proxies, lift, push_entry.
  rewrite Hc, Hnew. simpl.
  destruct (Nat.eqb_spec (length (device_proxies w)) MAX_PROXIES) as [Hfull|Hn].
  - destruct (device_proxies w) as [|[k v] d] eqn:Hd; [discriminate Hfull|].
    change (index (keys ((k, v) :: d)) 0) with (@Ok string k). simpl.
    rewrite delitem_head by exact Hnd. simpl.
    rewrite decide_True by exact Hfull. simpl tail.
    rewrite setitem_new; [reflexivity|].
    intros Hin. apply Hk. simpl. now apply elem_of_cons; right.
  - rewrite decide_False by exact Hn. simpl.
    now rewrite setitem_new.
Qed.

Lemma newest_all {A} n (l : list A) : length l <= n -> newest n l = l.
Proof. intros H. unfold newest. now replace (length l - n) with 0 by lia. Qed.

Lemma length_newest {A} n (l : list A) :
  length (newest n l) = Nat.min n (length l).
Proof. unfold newest. rewrite length_drop. lia. Qed.

Lemma newest_app {A} n (a b : list A) :
  newest n (newest n a ++ b) = newest n (a ++ b).
Proof.
  unfold newest. rewrite !drop_app, !length_app, !length_drop, drop_drop.
  f_equal; f_equal; lia.
Qed.

Lemma push_entry_newest (d : OrderedDict) item :
  length d <= MAX_PROXIES ->
  push_entry d item = newest MAX_PROXIES (d ++ [item]).
Proof.
  intros Hle. unfold push_entry, newest. rewrite length_app. simpl length.
  destruct (decide (length d = MAX_PROXIES)) as [Hfull|Hn].
  - replace (length d + 1 - MAX_PROXIES) with 1 by lia.
    destruct d; [discriminate Hfull|]. reflexivity.
  - now replace (length d + 1 - MAX_PROXIES) with 0 by lia.
Qed.

Lemma keys_newest n (d : OrderedDict) : keys (newest n d) = newest n (keys d).
Proof. unfold keys, newest. now rewrite fmap_drop, length_fmap. Qed.

Lemma NoDup_newest {A} n (l : list A) : NoDup l -> NoDup (newest n l).
Proof.
  intros H. unfold newest. rewrite <- (take_drop (length l - n) l) in H.
  now apply NoDup_app in H as (_ & _ & H).
Qed.

Lemma keys_zip (ds : list string) (ps : list DeviceProxy) :
  length ps = length ds -> keys (zip ds ps) = ds.
Proof. intros H. unfold keys. apply fst_zip. lia. Qed.

Lemma get_device_proxy_ok (w : World T) devname :
  pool_ok w -> pool_ok (snd (get_device_proxy devname w)).
Proof.
  intros [Hnd Hle]. destruct (decide (devname ∈ keys (device_proxies w))) as [Hin|Hout].
  - apply list_elem_of_fmap in Hin as ([k p] & Heq & Hin).
    simpl in Heq. subst devname.
    now rewrite (get_hit w k p).
  - destruct (new_DeviceProxy T devname (env w)) as [[[]|e] env'] eqn:Hnew.
    + rewrite (get_miss_ok w devname env') by assumption. simpl.
      rewrite push_entry_newest by exact Hle. split; simpl.
      * rewrite keys_newest. apply NoDup_newest.
        unfold keys. rewrite fmap_app. simpl.
        apply NoDup_app. repeat split; [exact Hnd| |apply NoDup_singleton].
        intros x Hx Hx'. apply list_elem_of_singleton in Hx'. now subst.
      * rewrite length_newest. lia.
    + rewrite (get_miss_fail w devname e env') by assumption. now split.
Qed.

Lemma serve_pool_ok (names : list string) : forall w : World T,
  pool_ok w -> pool_ok (snd (serve (map get_device_proxy names) w)).
Proof.
  induction names as [|d names IH]; intros w Hok; [exact Hok|].
  simpl. pose proof (get_device_proxy_ok w d Hok) as H1.
  destruct (get_device_proxy d w) as [r w1]. simpl in H1.
  specialize (IH w1 H1).
  destruct (serve (map get_device_proxy names) w1) as [rs w2]. exact IH.
Qed.

(** Acquiring names that are new to the pool, each with success. *)
Lemma acquire_new (ds : list string) : forall (w w' : World T) ps,
  pool_ok w ->
  NoDup ds ->
  (forall d, d ∈ ds -> d ∉ keys (device_proxies w)) ->
  for_each get_device_proxy ds w = (Ok ps, w') ->
  length ps = length ds /\
  device_proxies w' = newest MAX_PROXIES (device_proxies w ++ zip ds ps).
Proof.
  induction ds as [|d ds IH]; intros w w' ps Hok Hnd Hnew Hrun.
  - inversion Hrun; subst. simpl. rewrite app_nil_r.
    split; [reflexivity|]. symmetry. apply newest_all, Hok.
  - simpl in Hrun. unfold bind at 1 in Hrun.
    apply NoDup_cons in Hnd as [Hd Hnd].
    assert (d ∉ keys (device_proxies w)) as Hout
      by (apply Hnew; now apply elem_of_cons; left).
    pose proof (get_device_proxy_ok w d Hok) as Hok1.
    destruct Hok as [Hk Hle].
    destruct (new_DeviceProxy T d (env w)) as [[[]|e] env'] eqn:Hconn.
    2:{ rewrite (get_miss_fail w d e env') in Hrun by assumption.
        discriminate Hrun. }
    rewrite (get_miss_ok w d env') in Hrun, Hok1 by assumption.
    simpl in Hok1.
    set (p := mkDeviceProxy d (created w)) in *.
    set (w1 := mkWorld env' _ _ _ _) in *.
    unfold bind at 1 in Hrun.
    destruct (for_each get_device_proxy ds w1) as [[ps'|e] w2] eqn:Hrest;
      [|discriminate Hrun].
    inversion Hrun; subst ps w'. clear Hrun.
    destruct (IH w1 w2 ps' Hok1 Hnd) as [Hlen Hpool]; [|exact Hrest|].
    { intros x Hx. unfold w1. simpl.
      rewrite push_entry_newest by exact Hle. rewrite keys_newest.
      intros Hin. apply list_elem_of_lookup in Hin as [i Hi].
      unfold newest in Hi. rewrite lookup_drop in Hi.
      apply list_elem_of_lookup_2 in Hi.
      unfold keys in Hi. rewrite fmap_app in Hi. simpl in Hi.
      apply elem_of_app in Hi as [Hi|Hi].
      - apply (Hnew x); [now apply elem_of_cons; right|exact Hi].
      - apply list_elem_of_singleton in Hi. now subst. }
    split; [simpl; lia|].
    rewrite Hpool. unfold w1. simpl device_proxies.
    rewrite push_entry_newest by exact Hle.
    rewrite newest_app. now rewrite <- app_assoc.
Qed.

(** A handle that the pool hands out is bound to the name asked for. *)
Lemma get_device_proxy_named (w w' : World T) devname proxy :
  pool_named w ->
  get_device_proxy devname w = (Ok proxy, w') ->
  dev_name proxy = devname /\ pool_named w'.
Proof.
  unfold pool_named. intros Hnamed Hrun.
  unfold get_device_proxy, bind, get_device_proxies, lift in Hrun.
  destruct (contains (device_proxies w) devname) eqn:Hc.
  - unfold getitem in Hrun.
    destruct (find _ (device_proxies w)) as [[k p]|] eqn:Hfind;
      [|discriminate Hrun].
    inversion Hrun; subst. split; [|exact Hnamed].
    apply find_some in Hfind as [Hin Hk]. simpl in Hk.
    apply String.eqb_eq in Hk. subst k.
    rewrite Forall_forall in Hnamed.
    apply (Hnamed (devname, proxy)). now apply list_elem_of_In.
  - unfold DeviceProxy_init, bind, remote, fresh, ret, set_device_proxies,
      lift in Hrun.
    destruct (new_DeviceProxy T devname (env w)) as [[[]|e] env'];
      [|discriminate Hrun].
    simpl in Hrun.
    assert (forall d, Forall (fun item => dev_name (snd item) = fst item) d ->
              Forall (fun item => dev_name (snd item) = fst item)
                (setitem d devname (mkDeviceProxy devname (created w))))
      as Hset.
    { induction d as [|[k p] d IH]; simpl; intros Hd.
      - now apply Forall_cons.
      - apply Forall_cons in Hd as [Hk Hd].
        destruct (String.eqb k devname); apply Forall_cons; auto. }
    destruct (Nat.eqb (length (device_proxies w)) MAX_PROXIES).
    + destruct (index (keys (device_proxies w)) 0) as [oldest|e];
        [|discriminate Hrun].
      simpl in Hrun. unfold delitem in Hrun.
      destruct (contains (device_proxies w) oldest); [|discriminate Hrun].
      simpl in Hrun. inversion Hrun; subst. split; [reflexivity|].
      simpl. apply Hset. rewrite Forall_forall in *.
      intros x Hx. apply Hnamed. apply list_elem_of_In in Hx.
      apply filter_In in Hx as [Hx _]. now apply list_elem_of_In.
    + simpl in Hrun. inversion Hrun; subst. split; [reflexivity|].
      simpl. now apply Hset.
Qed.

(** Loading the module leaves a pool that is a dict within its bound and
    whose proxies are bound to their names. *)
Lemma load_pool_ok (e : E T) :
  pool_ok (snd (load (boot e))) /\ pool_named (snd (load (boot e))).
Proof.
  assert (forall w : World T,
            device_proxies w = [] ->
            pool_ok (snd (get_device_proxy "sys/database/2" w)) /\
            pool_named (snd (get_device_proxy "sys/database/2" w))) as Hget.
  { intros w Hempty.
    assert (pool_ok w) as Hok
      by (unfold pool_ok; rewrite Hempty; split;
          [apply NoDup_nil_2|simpl; lia]).
    split; [now apply get_device_proxy_ok|].
    destruct (get_device_proxy "sys/database/2" w) as [[p|ex] w1] eqn:Hrun.
    - apply (get_device_proxy_named w w1 "sys/database/2" p); [|exact Hrun].
      unfold pool_named. rewrite Hempty. apply Forall_nil_2.
    - destruct (new_DeviceProxy T "sys/database/2" (env w))
        as [[[]|ex'] e2] eqn:Hnew.
      + rewrite (get_miss_ok w "sys/database/2" e2) in Hrun;
          [discriminate Hrun|apply Hok|rewrite Hempty; apply not_elem_of_nil
          |exact Hnew].
      + rewrite (get_miss_fail w "sys/database/2" ex' e2) in Hrun;
          [|rewrite Hempty; apply not_elem_of_nil|exact Hnew].
        inversion Hrun; subst. unfold pool_named. simpl. rewrite Hempty.
        apply Forall_nil_2. }
  unfold load, DeviceProxy_init, bind, remote, fresh, ret,
    set_device_proxies, boot. simpl.
  destruct (new_DeviceProxy T "sys/database/2" e) as [[[]|ex] e1].
  - apply Hget. reflexivity.
  - simpl. split; [split; [apply NoDup_nil_2|simpl; lia]|apply Forall_nil_2].
Qed.

Lemma newest_app_short {A} n (a b : list A) :
  length b <= n ->
  newest n (a ++ b) = drop (length a + length b - n) a ++ b.
Proof.
  intros H. unfold newest. rewrite drop_app, length_app.
  f_equal. replace (length a + length b - n - length a) with 0 by lia.
  reflexivity.
Qed.

(** C2: up to [MAX_PROXIES] new device names acquired in a row all stay in
    the pool, each retrievable as the very handle that was created, with
    no remote call and no change to the pool; the pool holds the newest
    [MAX_PROXIES] entries in insertion order; acquiring one further new
    name removes the first-inserted entry and nothing else exactly when
    the pool is full; and the pool never grows beyond [MAX_PROXIES],
    whatever is requested afterwards. *)
Theorem pool_fifo_eviction (w w' : World T) (ds : list string)
    (ps : list DeviceProxy) :
  pool_ok w ->
  NoDup ds ->
  (forall d, d ∈ ds -> d ∉ keys (device_proxies w)) ->
  length ds <= MAX_PROXIES ->
  for_each get_device_proxy ds w = (Ok ps, w') ->
  (forall i d p, ds !! i = Some d -> ps !! i = Some p ->
     get_device_proxy d w' = (Ok p, w')) /\
  device_proxies w' = newest MAX_PROXIES (device_proxies w ++ zip ds ps) /\
  (device_proxies w = [] -> device_proxies w' = zip ds ps) /\
  (forall d' env',
     d' ∉ keys (device_proxies w') ->
     new_DeviceProxy T d' (env w') = (Ok tt, env') ->
     exists p' w'',
       get_device_proxy d' w' = (Ok p', w'') /\
       device_proxies w'' =
         (if decide (length (device_proxies w') = MAX_PROXIES)
          then tail (device_proxies w')
          else device_proxies w') ++ [(d', p')]) /\
  (forall names,
     length (device_proxies (snd (serve (map get_device_proxy names) w')))
     <= MAX_PROXIES).
Proof.
  intros Hok Hnd Hnew Hlen Hrun.
  destruct (acquire_new ds w w' ps Hok Hnd Hnew Hrun) as [Hps Hpool].
  assert (length (zip ds ps) <= MAX_PROXIES) as Hzip
    by (rewrite length_zip; lia).
  assert (pool_ok w') as Hok'.
  { destruct Hok as [Hk Hle]. split.
    - rewrite Hpool, keys_newest. apply NoDup_newest.
      unfold keys at 1. rewrite fmap_app. fold (keys (device_proxies w)).
      fold (keys (zip ds ps)). rewrite keys_zip by exact Hps.
      apply NoDup_app. repeat split; [exact Hk| |exact Hnd].
      intros x Hx Hx'. exact (Hnew x Hx' Hx).
    - rewrite Hpool, length_newest. lia. }
  repeat split.
  - intros i d p Hd Hp. apply get_hit; [apply Hok'|].
    rewrite Hpool, newest_app_short by exact Hzip.
    apply elem_of_app. right. apply list_elem_of_lookup. exists i.
    apply lookup_zip_with_Some. now exists d, p.
  - exact Hpool.
  - intros Hempty. rewrite Hpool, Hempty. simpl. now apply newest_all.
  - intros d' env' Hout Hconn.
    eexists _, _. split.
    + apply get_miss_ok; [apply Hok'|exact Hout|exact Hconn].
    + reflexivity.
  - intros names. apply (serve_pool_ok names w' Hok').
Qed.

End WithSystem.

Lemma pool_fifo_eviction_witness :
  let w := Mock.start (Mock.mkEnv 0 0) in
  let ds := Mock.devices 100 in
  let ps := map (fun i => mkDeviceProxy (Mock.device i) i) (seq 0 100) in
  let w' := snd (for_each get_device_proxy ds w) in
  let further := get_device_proxy (Mock.device 100) w' in
  (NoDup ds /\ length ds <= MAX_PROXIES /\
   for_each get_device_proxy ds w = (Ok ps, w')) /\
  (forall i d p, ds !! i = Some d -> ps !! i = Some p ->
     get_device_proxy d w' = (Ok p, w')) /\
  device_proxies w' = zip ds ps /\
  device_proxies (snd further) =
    tail (zip ds ps) ++ [(Mock.device 100, mkDeviceProxy (Mock.device 100) 100)].
Proof.
  intros w ds ps w' further.
  assert (NoDup ds) as Hnd
    by (apply (bool_decide_unpack (NoDup ds)); vm_compute; exact I).
  assert (length ds <= MAX_PROXIES) as Hlen by (vm_compute; lia).
  assert (for_each get_device_proxy ds w = (Ok ps, w')) as Hrun
    by (vm_compute; reflexivity).
  assert (pool_ok w) as Hok by (split; [apply NoDup_nil_2|simpl; lia]).
  assert (forall d, d ∈ ds -> d ∉ keys (device_proxies w)) as Hnew
    by (intros d _ H; inversion H).
  destruct (pool_fifo_eviction w w' ds ps Hok Hnd Hnew Hlen Hrun)
    as (Hget & _ & Hempty & Hmore & _).
  split; [split; [exact Hnd|split; [exact Hlen|exact Hrun]]|].
  split; [exact Hget|].
  split; [apply Hempty; reflexivity|].
  destruct (Hmore (Mock.device 100) (env w')) as (p' & w'' & Hrun' & Hpool).
  - apply (bool_decide_unpack (Mock.device 100 ∉ keys (device_proxies w'))).
    vm_compute. exact I.
  - vm_compute. reflexivity.
  - unfold further. rewrite Hrun'. simpl snd. rewrite Hpool.
    assert (p' = mkDeviceProxy (Mock.device 100) 100) as ->.
    { assert (fst (get_device_proxy (Mock.device 100) w') =
              Ok (mkDeviceProxy (Mock.device 100) 100)) as H
        by (vm_compute; reflexivity).
      rewrite Hrun' in H. now inversion H. }
    rewrite (Hempty eq_refl). rewrite decide_True; [reflexivity|].
    vm_compute. reflexivity.
Defined.

End PoolFacts.

(** ** The cache of database reads *)

Module CacheFacts.
Import Cache.

Section WithSystem.
Context {T : System}.

Ltac run :=
  unfold CachedMethod_call, cache_contains, cache_getitem, cache_setitem,
    deref, db_method, bind, ret, raise, lift, time_time, get_methods,
    set_methods, remote, TTLDict.contains, TTLDict.getitem, TTLDict.setitem.

Lemma call_hit (w : World T) self this args value :
  _methods w !! self = Some this ->
  TTLDict.hashable args = true ->
  TTLDict.live (cache this) (clock T (env w)) args = Some value ->
  CachedMethod_call self args w = (Ok value, w).
Proof.
  intros Hs Hh Hl. run.
  repeat (progress (rewrite ?Hs, ?Hh, ?Hl; simpl)). reflexivity.
Qed.

Lemma call_miss_raise (w : World T) self this args e env' :
  _methods w !! self = Some this ->
  TTLDict.hashable args = true ->
  TTLDict.live (cache this) (clock T (env w)) args = None ->
  command_inout T "sys/database/2" (method this) args (env w) = (Raise e, env') ->
  CachedMethod_call self args w =
  (Raise e, called w (inner_call (method this) args) env').
Proof.
  intros Hs Hh Hl Hc. run.
  repeat (progress (rewrite ?Hs, ?Hh, ?Hl, ?Hc; simpl)). reflexivity.
Qed.

Lemma call_miss_ok (w : World T) self this args value env' :
  _methods w !! self = Some this ->
  TTLDict.hashable args = true ->
  TTLDict.live (cache this) (clock T (env w)) args = None ->
  command_inout T "sys/database/2" (method this) args (env w) = (Ok value, env') ->
  CachedMethod_call self args w =
  (Ok value,
   stored (called w (inner_call (method this) args) env') self this args value).
Proof.
  intros Hs Hh Hl Hc. run.
  repeat (progress (rewrite ?Hs, ?Hh, ?Hl, ?Hc; simpl)). reflexivity.
Qed.

Lemma call_unhashable (w : World T) self this args :
  _methods w !! self = Some this ->
  TTLDict.hashable args = false ->
  CachedMethod_call self args w = (Raise TypeError, w).
Proof.
  intros Hs Hh. run.
  repeat (progress (rewrite ?Hs, ?Hh; simpl)). reflexivity.
Qed.

(** What a stored entry answers at a later time. *)
Lemma live_stored (d : TTLDict.t) args value inserted now :
  TTLDict.live
    (TTLDict.mk (TTLDict.default_ttl d)
       (<[args := (value, inserted)]> (TTLDict.entries d))) now args =
  if now - inserted <? TTLDict.default_ttl d then Some value else None.
Proof. unfold TTLDict.live. simpl. now rewrite lookup_insert_eq. Qed.

(** An entry that is not live stays so while the clock does not go back. *)
Lemma live_None_later (d : TTLDict.t) args now later :
  now <= later ->
  TTLDict.live d now args = None -> TTLDict.live d later args = None.
Proof.
  unfold TTLDict.live. intros Hle.
  destruct (TTLDict.entries d !! args) as [[v t0]|]; [|reflexivity].
  destruct (now - t0 <? TTLDict.default_ttl d) eqn:H1; [discriminate|].
  intros _. destruct (later - t0 <? TTLDict.default_ttl d) eqn:H2; [lia|reflexivity].
Qed.

(** A fetch that goes to the remote system issues one call, whatever the
    outcome. *)
Lemma call_miss_calls (w : World T) self this args :
  _methods w !! self = Some this ->
  TTLDict.hashable args = true ->
  TTLDict.live (cache this) (clock T (env w)) args = None ->
  calls (snd (CachedMethod_call self args w)) =
  calls w ++ [inner_call (method this) args].
Proof.
  intros Hs Hh Hl.
  destruct (command_inout T "sys/database/2" (method this) args (env w))
    as [[v|e] env'] eqn:Hc.
  - now rewrite (call_miss_ok w self this args v env').
  - now rewrite (call_miss_raise w self this args e env').
Qed.

(** C6: a fetch that finds no live entry and whose inner call returns
    issues that one call and stores the value at the time the call
    returned; with a positive ttl the fetch repeated at once, and any fetch
    less than ttl later, returns the stored value and leaves the world as
    it was, so issues no call; a fetch ttl or more later issues the inner
    call again. *)
Theorem ttl_cache_once_per_window (w : World T) self this args value env' :
  let ttl := TTLDict.default_ttl (cache this) in
  let c := inner_call (method this) args in
  let w1 := stored (called w c env') self this args value in
  0 < ttl ->
  _methods w !! self = Some this ->
  TTLDict.hashable args = true ->
  TTLDict.live (cache this) (clock T (env w)) args = None ->
  command_inout T "sys/database/2" (method this) args (env w) = (Ok value, env') ->
  CachedMethod_call self args w = (Ok value, w1) /\
  calls w1 = calls w ++ [c] /\
  CachedMethod_call self args w1 = (Ok value, w1) /\
  (forall w2 : World T, _methods w2 = _methods w1 ->
     clock T (env w2) - clock T env' < ttl ->
     CachedMethod_call self args w2 = (Ok value, w2)) /\
  (forall w3 : World T, _methods w3 = _methods w1 ->
     ttl <= clock T (env w3) - clock T env' ->
     calls (snd (CachedMethod_call self args w3)) = calls w3 ++ [c]).
Proof.
  intros ttl c w1 Httl Hs Hh Hl Hc.
  assert (forall w2 : World T, _methods w2 = _methods w1 ->
            _methods w2 !! self =
            Some (mkCachedMethod
                    (TTLDict.mk ttl (<[args := (value, clock T env')]>
                                       (TTLDict.entries (cache this))))
                    (method this))) as Hobj.
  { intros w2 ->. unfold w1, stored. simpl. apply lookup_insert_eq. }
  assert (forall w2 : World T, _methods w2 = _methods w1 ->
            clock T (env w2) - clock T env' < ttl ->
            CachedMethod_call self args w2 = (Ok value, w2)) as Hhit.
  { intros w2 Hm Hin. apply (call_hit w2 self _ args value (Hobj w2 Hm) Hh).
    simpl cache. rewrite (live_stored (cache this)). fold ttl.
    now rewrite (proj2 (Z.ltb_lt _ _) Hin). }
  split; [|split; [|split; [|split]]].
  - now apply call_miss_ok.
  - reflexivity.
  - apply Hhit; [reflexivity|]. simpl. lia.
  - exact Hhit.
  - intros w3 Hm Hout.
    apply (call_miss_calls w3 self _ args (Hobj w3 Hm) Hh).
    simpl cache. rewrite (live_stored (cache this)). fold ttl.
    now rewrite (proj2 (Z.ltb_ge _ _) Hout).
Qed.

(** C7: when a fetch finds no live entry and its inner call raises, the
    fetch raises the same exception, the cache objects are what they were,
    and a later fetch of the same signature issues the inner call again. *)
Theorem failed_fetch_not_cached (w : World T) self this args e env' :
  let c := inner_call (method this) args in
  let w1 := called w c env' in
  _methods w !! self = Some this ->
  TTLDict.hashable args = true ->
  TTLDict.live (cache this) (clock T (env w)) args = None ->
  command_inout T "sys/database/2" (method this) args (env w) = (Raise e, env') ->
  CachedMethod_call self args w = (Raise e, w1) /\
  _methods w1 = _methods w /\
  (forall w2 : World T, _methods w2 = _methods w1 ->
     clock T (env w) <= clock T (env w2) ->
     calls (snd (CachedMethod_call self args w2)) = calls w2 ++ [c]).
Proof.
  intros c w1 Hs Hh Hl Hc. split; [|split].
  - now apply call_miss_raise.
  - reflexivity.
  - intros w2 Hm Hclock. simpl in Hm.
    apply (call_miss_calls w2 self this args); [now rewrite Hm|exact Hh|].
    exact (live_None_later _ _ _ _ Hclock Hl).
Qed.

(** A method whose name does not start with ["Get"] is the plain method of
    the database proxy. *)
Lemma query_plain (self : CachedDatabase) name args (w : World T) :
  startswith name "Get" = false ->
  query self name args w = db_method name args w.
Proof.
  intros H. unfold query, CachedDatabase_getattr, bind. rewrite H. reflexivity.
Qed.

Lemma db_method_called name args (w : World T) :
  snd (db_method name args w) =
  called w (inner_call name args)
    (snd (command_inout T "sys/database/2" name args (env w))).
Proof.
  unfold db_method, remote, called, inner_call.
  now destruct (command_inout T "sys/database/2" name args (env w)).
Qed.

(** Requests that each issue the call [c] and nothing else. *)
Lemma serve_calls {A} (m : M T A) c n : forall w : World T,
  (forall w, calls (snd (m w)) = calls w ++ [c]) ->
  calls (snd (serve (replicate n m) w)) = calls w ++ replicate n c.
Proof.
  induction n as [|n IH]; intros w Hm; simpl.
  - now rewrite app_nil_r.
  - pose proof (Hm w) as Hw. destruct (m w) as [r w1]. simpl in Hw.
    specialize (IH w1 Hm). destruct (serve (replicate n m) w1) as [rs w2].
    simpl in *. rewrite IH, Hw.
    now rewrite <- app_assoc.
Qed.

Lemma serve_methods {A} (m : M T A) n : forall w : World T,
  (forall w, _methods (snd (m w)) = _methods w) ->
  _methods (snd (serve (replicate n m) w)) = _methods w.
Proof.
  induction n as [|n IH]; intros w Hm; simpl; [reflexivity|].
  pose proof (Hm w) as Hw. destruct (m w) as [r w1]. simpl in Hw.
  specialize (IH w1 Hm). destruct (serve (replicate n m) w1) as [rs w2].
  simpl in *. now rewrite IH.
Qed.

Lemma plain_query_calls name args :
  startswith name "Get" = false ->
  forall w : World T,
    calls (snd (query db name args w)) = calls w ++ [inner_call name args].
Proof.
  intros H w. now rewrite query_plain, db_method_called by exact H.
Qed.

Lemma plain_query_methods name args :
  startswith name "Get" = false ->
  forall w : World T, _methods (snd (query db name args w)) = _methods w.
Proof.
  intros H w. now rewrite query_plain, db_method_called by exact H.
Qed.

(** C1: none of the queries of the routes has a name that starts with
    ["Get"], so each of five requests in a row goes to the database and
    no cache object is ever made or filled; so does the route [/devices]. *)
Theorem route_queries_not_cached :
  Forall
    (fun name =>
       forall (w : World T) args,
         let w' := snd (serve (replicate 5 (query db name args)) w) in
         calls w' = calls w ++ replicate 5 (inner_call name args) /\
         _methods w' = _methods w)
    route_queries /\
  (forall (w : World T) request,
     calls (snd (serve (replicate 5 (Bridge.get_devices request)) w)) =
     calls w ++
     replicate 5
       (inner_call "DbGetDeviceWideList"
          [AStr (Bridge.args_get_default (Bridge.args request) "wildcard" "*")])).
Proof.
  split.
  - unfold route_queries.
    repeat (apply Forall_cons; split;
            [intros w args; split;
             [apply serve_calls; now apply plain_query_calls
             |apply serve_methods; now apply plain_query_methods]|]).
    apply Forall_nil_2.
  - intros w request. apply serve_calls. intros w0.
    unfold Bridge.get_devices, bind at 1.
    pose proof (plain_query_calls "DbGetDeviceWideList"
      [AStr (Bridge.args_get_default (Bridge.args request) "wildcard" "*")]
      eq_refl w0) as H.
    destruct (query db "DbGetDeviceWideList" _ w0) as [[v|e] w1]; exact H.
Qed.

End WithSystem.

Lemma ttl_cache_once_per_window_witness :
  let w := Mock.with_method "GetDeviceList" (Mock.mkEnv 1000 50) in
  let fetch := CachedMethod_call (T:=Mock.system) "GetDeviceList" [AStr "*"] in
  let c := inner_call "GetDeviceList" [AStr "*"] in
  let w1 := snd (fetch w) in
  (0 < 10 /\ TTLDict.hashable [AStr "*"] = true) /\
  fetch w = (Ok ["a/b/c"; "50"], w1) /\
  calls w1 = [c] /\
  fetch w1 = (Ok ["a/b/c"; "50"], w1) /\
  fetch (Mock.later 9 w1) = (Ok ["a/b/c"; "50"], Mock.later 9 w1) /\
  calls (snd (fetch (Mock.later 10 w1))) = [c; c].
Proof.
  intros w fetch c w1.
  destruct (ttl_cache_once_per_window (T:=Mock.system) w "GetDeviceList"
              (CachedMethod_init "GetDeviceList" 10) [AStr "*"]
              ["a/b/c"; "50"] (Mock.mkEnv 1001 50))
    as (H1 & H2 & H3 & H4 & H5).
  - simpl. lia.
  - vm_compute. reflexivity.
  - reflexivity.
  - vm_compute. reflexivity.
  - vm_compute. reflexivity.
  - fold fetch in H1, H3, H4, H5.
    assert (w1 = stored (called w c (Mock.mkEnv 1001 50)) "GetDeviceList"
                   (CachedMethod_init "GetDeviceList" 10) [AStr "*"]
                   ["a/b/c"; "50"]) as Hw1
      by (unfold w1; rewrite H1; reflexivity).
    rewrite Hw1.
    split; [split; [lia|reflexivity]|].
    split; [exact H1|].
    split; [exact H2|].
    split; [exact H3|].
    split.
    + apply H4; [reflexivity|]. simpl. lia.
    + apply H5; [reflexivity|]. simpl. lia.
Defined.

Lemma failed_fetch_not_cached_witness :
  let w := Mock.with_method "GetBroken" (Mock.mkEnv 1000 50) in
  let fetch := CachedMethod_call (T:=Mock.system) "GetBroken" [AStr "*"] in
  let c := inner_call "GetBroken" [AStr "*"] in
  let w1 := snd (fetch w) in
  TTLDict.hashable [AStr "*"] = true /\
  fetch w = (Raise (Mock.failure "API_CommandFailed"), w1) /\
  _methods w1 = _methods w /\
  calls (snd (fetch w1)) = [c; c] /\
  calls (snd (fetch (Mock.later 3600 w1))) = [c; c].
Proof.
  intros w fetch c w1.
  destruct (failed_fetch_not_cached (T:=Mock.system) w "GetBroken"
              (CachedMethod_init "GetBroken" 10) [AStr "*"]
              (Mock.failure "API_CommandFailed") (Mock.mkEnv 1001 50))
    as (H1 & H2 & H3).
  - vm_compute. reflexivity.
  - reflexivity.
  - vm_compute. reflexivity.
  - vm_compute. reflexivity.
  - fold fetch in H1, H3.
    assert (w1 = called w c (Mock.mkEnv 1001 50)) as Hw1
      by (unfold w1; rewrite H1; reflexivity).
    rewrite Hw1.
    split; [reflexivity|].
    split; [exact H1|].
    split; [exact H2|].
    split.
    + apply H3; [reflexivity|]. simpl. lia.
    + apply H3; [reflexivity|]. simpl. lia.
Defined.

End CacheFacts.

(** ** The routes *)

Module BridgeFacts.
Import Bridge.

Section WithSystem.
Context {T : System}.

Ltac run :=
  unfold proxy_get_attribute_config, proxy_write_read_attribute,
    proxy_write_attribute, proxy_read_attribute, attribute_response,
    make_error_response, try_DevFailed, bind, ret, raise, lift, time_time,
    remote.

(** C5: a PUT with a value that reaches the write asks for the descriptor
    and then, for a READ_WRITE or READ_WITH_WRITE attribute, issues the one
    combined call and nothing else; for any other attribute it issues the
    write and, once that has returned, the read, and no read when the write
    raised.  The answer carries the value, quality and time of the reading
    that the remote call returned. *)
Theorem write_then_read_back (w w1 : World T) request
    domain family member attribute proxy str_value attr_info e2 value :
  let dev := dev_name proxy in
  let out := get_device_attribute request domain family member attribute w in
  http_method request = PUT ->
  args_get (args request) "value" = Some str_value ->
  str_value <> EmptyString ->
  Pool.get_device_proxy (device_name domain family member) w = (Ok proxy, w1) ->
  get_attribute_config T dev attribute (env w1) = (Ok attr_info, e2) ->
  str_2_obj T str_value (ai_data_type attr_info) = Ok value ->
  (write_read_capable (ai_writable attr_info) = true ->
   forall r e3,
     write_read_attribute T dev attribute value e2 = (r, e3) ->
     calls (snd out) =
       calls w1 ++ [GetAttributeConfig dev attribute;
                    WriteReadAttribute dev attribute value] /\
     fst out = answer_of r) /\
  (write_read_capable (ai_writable attr_info) = false ->
   (forall ex e3,
      write_attribute T dev attribute value e2 = (Raise ex, e3) ->
      calls (snd out) =
        calls w1 ++ [GetAttributeConfig dev attribute;
                     WriteAttribute dev attribute value] /\
      fst out = Raise ex) /\
   (forall e3 r e4,
      write_attribute T dev attribute value e2 = (Ok tt, e3) ->
      read_attribute T dev attribute e3 = (r, e4) ->
      calls (snd out) =
        calls w1 ++ [GetAttributeConfig dev attribute;
                     WriteAttribute dev attribute value;
                     ReadAttribute dev attribute] /\
      fst out = answer_of r)).
Proof.
  intros dev out Hput Hval Hne Hproxy Hconf Hcoerce.
  assert (out =
          (attr_info <- proxy_get_attribute_config proxy attribute ;;
           value <- lift (str_2_obj T str_value (ai_data_type attr_info)) ;;
           result <-
             (if write_read_capable (ai_writable attr_info)
              then proxy_write_read_attribute proxy attribute value
              else
                proxy_write_attribute proxy attribute value ;;;
                proxy_read_attribute proxy attribute) ;;
           attribute_response result) w1) as Hout.
  { unfold out, get_device_attribute. unfold bind at 1, try_DevFailed.
    rewrite Hproxy, Hput, Hval.
    destruct str_value; [congruence|reflexivity]. }
  rewrite Hout. clear Hout out. subst dev.
  run. rewrite Hconf. simpl. rewrite Hcoerce.
  split.
  - intros Hcap r e3 Hwr. rewrite Hcap. simpl. rewrite Hwr.
    destruct r; simpl; rewrite <- app_assoc; split; reflexivity.
  - intros Hcap. rewrite Hcap. split.
    + intros ex e3 Hw. simpl. rewrite Hw. simpl. rewrite <- app_assoc.
      split; reflexivity.
    + intros e3 r e4 Hw Hr. simpl. rewrite Hw. simpl. rewrite Hr.
      destruct r; simpl; rewrite <- !app_assoc; split; reflexivity.
Qed.

(** X10: the loop of [get_put_device_attributes] writes each attribute the
    way [get_device_attribute] does: the value is the one of the query
    under the name of the descriptor, coerced to its type; a READ_WRITE or
    READ_WITH_WRITE attribute gets the one combined call, any other the
    write and then, once it returned, the read; the entry carries what the
    reading returned. *)
Lemma put_attribute_write_then_read_back (w : World T) request proxy
    attr_info str_value value :
  let dev := dev_name proxy in
  let attr := ai_name attr_info in
  let out := put_attribute request proxy attr_info w in
  args_getitem (args request) attr = Ok str_value ->
  str_2_obj T str_value (ai_data_type attr_info) = Ok value ->
  (write_read_capable (ai_writable attr_info) = true ->
   forall r e3,
     write_read_attribute T dev attr value (env w) = (r, e3) ->
     calls (snd out) = calls w ++ [WriteReadAttribute dev attr value] /\
     fst out = entry_of (T:=T) attr_info r) /\
  (write_read_capable (ai_writable attr_info) = false ->
   (forall ex e3,
      write_attribute T dev attr value (env w) = (Raise ex, e3) ->
      calls (snd out) = calls w ++ [WriteAttribute dev attr value] /\
      fst out = Raise ex) /\
   (forall e3 r e4,
      write_attribute T dev attr value (env w) = (Ok tt, e3) ->
      read_attribute T dev attr e3 = (r, e4) ->
      calls (snd out) =
        calls w ++ [WriteAttribute dev attr value; ReadAttribute dev attr] /\
      fst out = entry_of (T:=T) attr_info r)).
Proof.
  intros dev attr out Hval Hcoerce. subst dev attr out.
  unfold put_attribute. run. rewrite Hval. simpl. rewrite Hcoerce.
  split.
  - intros Hcap r e3 Hwr. rewrite Hcap. simpl. rewrite Hwr.
    destruct r; simpl; split; reflexivity.
  - intros Hcap. rewrite Hcap. split.
    + intros ex e3 Hw. simpl. rewrite Hw. simpl. split; reflexivity.
    + intros e3 r e4 Hw Hr. simpl. rewrite Hw. simpl. rewrite Hr.
      destruct r; simpl; rewrite <- !app_assoc; split; reflexivity.
Qed.

(** A PUT on the attributes of a device asks for all descriptors at once
    and then runs the loop over them. *)
Lemma get_put_device_attributes_put (w w1 : World T) request
    domain family member proxy :
  http_method request = PUT ->
  Pool.get_device_proxy (device_name domain family member) w = (Ok proxy, w1) ->
  get_put_device_attributes request domain family member w =
  (infos <- proxy_get_attribute_config_list proxy (map fst (args request)) ;;
   results <- for_each (put_attribute request proxy) infos ;;
   ret (mkResponse (Attributes results) 200)) w1.
Proof.
  intros Hput Hproxy. unfold get_put_device_attributes.
  unfold bind at 1, try_DevFailed. now rewrite Hproxy, Hput.
Qed.

(** The error envelope: the errors of the failure in their order, the
    quality ["FAILURE"], the time of the call, status 500. *)
Lemma make_error_response_envelope (w : World T) (e : list DevError) :
  make_error_response e w =
  (Ok (mkResponse
         (ErrorEnvelope (map stringify_error e) "FAILURE" (clock T (env w)))
         500), w).
Proof. reflexivity. Qed.

(** A device that cannot be connected to is answered with the envelope. *)
Lemma connection_failure_envelope (w w1 : World T) request
    domain family member attribute errors :
  Pool.get_device_proxy (device_name domain family member) w =
    (Raise (DevFailed errors), w1) ->
  get_device_attribute request domain family member attribute w =
  (Ok (mkResponse
         (ErrorEnvelope (map stringify_error errors) "FAILURE"
            (clock T (env w1)))
         500), w1).
Proof.
  intros Hproxy. unfold get_device_attribute.
  unfold bind at 1, try_DevFailed. now rewrite Hproxy.
Qed.

(** C10, amended: a PUT without a value, or with an empty one, on a device
    whose handle is obtained answers with the empty body and leaves the
    world as it is right after the handle was obtained: no descriptor is
    asked for, nothing is written or read. *)
Theorem put_without_value (w w1 : World T) request
    domain family member attribute proxy :
  http_method request = PUT ->
  args_get (args request) "value" = None \/
  args_get (args request) "value" = Some EmptyString ->
  Pool.get_device_proxy (device_name domain family member) w = (Ok proxy, w1) ->
  get_device_attribute request domain family member attribute w =
  (Ok (mkResponse (Text EmptyString) 200), w1).
Proof.
  intros Hput Hval Hproxy. unfold get_device_attribute.
  unfold bind at 1, try_DevFailed. rewrite Hproxy, Hput.
  now destruct Hval as [-> | ->].
Qed.

End WithSystem.

(** C8: on the mock system a write that the device refuses, a read-back
    that fails after the write went through, and a value that cannot be
    coerced all leave [get_device_attribute] by the exception itself; no
    response, so no error envelope, is made. *)
Theorem write_failure_not_enveloped :
  let w := Mock.start (Mock.mkEnv 1000 50) in
  let put value := mkRequest PUT [("value", [value])] in
  fst (get_device_attribute (put "5") "a" "b" "c" "locked" w) =
    Raise (Mock.failure "API_AttrNotWritable") /\
  fst (get_device_attribute (put "5") "a" "b" "c" "stuck" w) =
    Raise (Mock.failure "API_AttrValueNotSet") /\
  Mock.level (env (snd (get_device_attribute (put "5") "a" "b" "c" "stuck" w)))
    = 5 /\
  fst (get_device_attribute (put "high") "a" "b" "c" "level" w) =
    Raise ValueError.
Proof. vm_compute. repeat split. Qed.

(** C10 as stated fails: a PUT without a value on a device that cannot be
    connected to is answered with the error envelope, not the empty body. *)
Lemma put_without_value_unreachable :
  let request := mkRequest PUT [] in
  let out :=
    get_device_attribute request "x" "y" "z" "level"
      (Mock.start (Mock.mkEnv 1000 50)) in
  args_get (args request) "value" = None /\
  fst out =
    Ok (mkResponse
          (ErrorEnvelope
             [mkErrorRecord "API_DeviceNotDefined" "mock failure" "ERR" "Mock"]
             "FAILURE" 1000)
          500) /\
  fst out <> Ok (mkResponse (Text EmptyString) 200).
Proof. vm_compute. repeat split. discriminate. Qed.

Lemma write_then_read_back_witness :
  let w := Mock.start (Mock.mkEnv 1000 50) in
  let put := mkRequest PUT [("value", ["150"])] in
  let combined := get_device_attribute put "a" "b" "c" "level" w in
  let separate := get_device_attribute put "a" "b" "c" "setpoint" w in
  (calls (snd combined) =
     [NewDeviceProxy "a/b/c"; GetAttributeConfig "a/b/c" "level";
      WriteReadAttribute "a/b/c" "level" (PInt 150)] /\
   fst combined =
     Ok (answer (mkDeviceAttribute "level" (PInt 100) ATTR_VALID 1000))) /\
  (calls (snd separate) =
     [NewDeviceProxy "a/b/c"; GetAttributeConfig "a/b/c" "setpoint";
      WriteAttribute "a/b/c" "setpoint" (PInt 150);
      ReadAttribute "a/b/c" "setpoint"] /\
   fst separate =
     Ok (answer (mkDeviceAttribute "setpoint" (PInt 100) ATTR_VALID 1000))).
Proof.
  intros w put combined separate.
  set (proxy := mkDeviceProxy "a/b/c" 0).
  set (w1 := @mkWorld Mock.system (Mock.mkEnv 1000 50)
               [NewDeviceProxy "a/b/c"] 1 [("a/b/c", proxy)] ∅).
  split.
  - destruct (write_then_read_back (T:=Mock.system) w w1 put "a" "b" "c"
                "level" proxy "150" (Mock.config "level")
                (Mock.mkEnv 1000 50) (PInt 150)) as [Hcombined _].
    + reflexivity.
    + reflexivity.
    + discriminate.
    + vm_compute. reflexivity.
    + reflexivity.
    + vm_compute. reflexivity.
    + apply (Hcombined eq_refl
               (Ok (mkDeviceAttribute "level" (PInt 100) ATTR_VALID 1000))
               (Mock.mkEnv 1000 100)).
      vm_compute. reflexivity.
  - destruct (write_then_read_back (T:=Mock.system) w w1 put "a" "b" "c"
                "setpoint" proxy "150" (Mock.config "setpoint")
                (Mock.mkEnv 1000 50) (PInt 150)) as [_ Hseparate].
    + reflexivity.
    + reflexivity.
    + discriminate.
    + vm_compute. reflexivity.
    + reflexivity.
    + vm_compute. reflexivity.
    + destruct (Hseparate eq_refl) as [_ Hread].
      apply (Hread (Mock.mkEnv 1000 100)
               (Ok (mkDeviceAttribute "setpoint" (PInt 100) ATTR_VALID 1000))
               (Mock.mkEnv 1000 100)).
      * vm_compute. reflexivity.
      * vm_compute. reflexivity.
Defined.

Lemma put_without_value_witness :
  let w := Mock.start (Mock.mkEnv 1000 50) in
  let proxy := mkDeviceProxy "a/b/c" 0 in
  let w1 := @mkWorld Mock.system (Mock.mkEnv 1000 50)
              [NewDeviceProxy "a/b/c"] 1 [("a/b/c", proxy)] ∅ in
  Pool.get_device_proxy (device_name "a" "b" "c") w = (Ok proxy, w1) /\
  get_device_attribute (mkRequest PUT []) "a" "b" "c" "level" w =
    (Ok (mkResponse (Text EmptyString) 200), w1) /\
  get_device_attribute (mkRequest PUT [("value", [EmptyString])])
    "a" "b" "c" "level" w =
    (Ok (mkResponse (Text EmptyString) 200), w1).
Proof.
  intros w proxy w1.
  assert (Pool.get_device_proxy (device_name "a" "b" "c") w = (Ok proxy, w1))
    as Hproxy by (vm_compute; reflexivity).
  split; [exact Hproxy|]. split.
  - apply (put_without_value (T:=Mock.system) w w1 _ "a" "b" "c" "level" proxy);
      [reflexivity|left; reflexivity|exact Hproxy].
  - apply (put_without_value (T:=Mock.system) w w1 _ "a" "b" "c" "level" proxy);
      [reflexivity|right; reflexivity|exact Hproxy].
Defined.

End BridgeFacts.

(** ** More on the property wire codec *)

Module CodecMore.
Import Codec PyFacts CodecFacts.

Lemma decode_loop_length n : forall data pos props out,
  decode_loop n data pos props = Ok out ->
  length out = (length props + n)%nat.
Proof.
  induction n as [|n IH]; intros data pos props out H; simpl in H.
  - inversion H. lia.
  - destruct (index data pos) as [prop|]; [|discriminate H].
    destruct (index data (pos + 1)) as [count|]; [|discriminate H].
    simpl in H. destruct (int count) as [len|]; [|discriminate H].
    simpl in H. apply IH in H. rewrite H, length_app. simpl. lia.
Qed.

(** X1: a decoding that succeeds returns exactly as many properties as the
    count field at position 1 declares (none for a negative count). *)
Theorem decode_returns_declared_count data props :
  decode_device_properties data = Ok props ->
  exists count n,
    index data 1 = Ok count /\ int count = Ok n /\
    length props = Z.to_nat n.
Proof.
  unfold decode_device_properties. intros H.
  destruct (index data 1) as [count|] eqn:Hc; [|discriminate H].
  simpl in H. destruct (int count) as [n|] eqn:Hn; [|discriminate H].
  simpl in H. exists count, n.
  split; [reflexivity|]. split; [exact Hn|].
  apply decode_loop_length in H. exact H.
Qed.

Lemma decode_returns_declared_count_witness :
  decode_device_properties ["a/b/c"; "2"; "P"; "0"; "Q"; "1"; "x"; "junk"] =
    Ok [mkProperty "P" []; mkProperty "Q" ["x"]] /\
  exists count n,
    index ["a/b/c"; "2"; "P"; "0"; "Q"; "1"; "x"; "junk"] 1 = Ok count /\
    int count = Ok n /\
    length [mkProperty "P" []; mkProperty "Q" ["x"]] = Z.to_nat n.
Proof.
  split; [vm_compute; reflexivity|].
  apply decode_returns_declared_count. vm_compute. reflexivity.
Defined.

Lemma properties_of_inj d1 : forall d2,
  properties_of (byte_strings d1) = properties_of (byte_strings d2) ->
  d1 = d2.
Proof.
  induction d1 as [|[k vs] d1 IH]; intros [|[k' vs'] d2] H;
    try discriminate H; [reflexivity|].
  simpl in H. rewrite !text_Str in H. inversion H; subst.
  f_equal. now apply IH.
Qed.

(** X2: the encoding loses nothing: two dicts of byte strings that differ,
    in a name, in a value, in the order of the values of a property or in
    the order of the properties, are never encoded as the same sequence,
    and neither are two device names. *)
Theorem encode_distinct device1 device2 data1 data2 :
  (device1, data1) <> (device2, data2) ->
  encode_device_properties device1 (byte_strings data1) <>
  encode_device_properties device2 (byte_strings data2).
Proof.
  intros Hne Heq. apply Hne.
  pose proof (encode_flat device1 _ (encodable_byte_strings data1)) as E1.
  pose proof (encode_flat device2 _ (encodable_byte_strings data2)) as E2.
  assert (device1 = device2) as ->.
  { rewrite E1, E2 in Heq. simpl in Heq. now inversion Heq. }
  f_equal. apply properties_of_inj.
  pose proof (decode_encode_app device2 _ _ [] E1) as H1.
  rewrite Heq in E1.
  pose proof (decode_encode_app device2 _ _ [] E1) as H2.
  rewrite H2 in H1. now inversion H1.
Qed.

Lemma encode_distinct_witness :
  ("a/b/c", [("P", ["1"; "2"])]) <> ("a/b/c", [("P", ["2"; "1"])]) /\
  encode_device_properties "a/b/c" (byte_strings [("P", ["1"; "2"])]) <>
  encode_device_properties "a/b/c" (byte_strings [("P", ["2"; "1"])]).
Proof.
  assert (("a/b/c", [("P", ["1"; "2"])]) <> ("a/b/c", [("P", ["2"; "1"])]))
    as Hne by discriminate.
  split; [exact Hne|]. apply encode_distinct. exact Hne.
Defined.

(** X3: a count field of zero, or a negative one, decodes to the empty
    list whatever follows it: the loop runs over an empty range and reads
    nothing. *)
Theorem decode_no_properties device count rest n :
  int count = Ok n ->
  n <= 0 ->
  decode_device_properties (device :: count :: rest) = Ok [].
Proof.
  intros Hn Hle. rewrite decode_header, Hn. simpl.
  now replace (Z.to_nat n) with 0%nat by lia.
Qed.

Lemma decode_no_properties_witness :
  int " -3 " = Ok (-3) /\ -3 <= 0 /\
  decode_device_properties ["a/b/c"; " -3 "; "P"; "oops"] = Ok [].
Proof.
  split; [vm_compute; reflexivity|]. split; [lia|].
  apply (decode_no_properties "a/b/c" " -3 " ["P"; "oops"] (-3)).
  - vm_compute. reflexivity.
  - lia.
Defined.

End CodecMore.

(** ** More on the connection pool *)

Module PoolMore.
Import Pool PoolFacts.
Local Open Scope nat_scope.

Section WithSystem.
Context {T : System}.

Lemma setitem_named (d : OrderedDict) devname n :
  Forall (fun item => dev_name (snd item) = fst item) d ->
  Forall (fun item => dev_name (snd item) = fst item)
    (setitem d devname (mkDeviceProxy devname n)).
Proof.
  induction d as [|[k p] d IH]; simpl; intros Hd.
  - now apply Forall_cons.
  - apply Forall_cons in Hd as [Hk Hd].
    destruct (String.eqb k devname); apply Forall_cons; auto.
Qed.

(** Whatever a request for a proxy does, the proxies of the pool stay
    bound to the names they are filed under. *)
Lemma get_device_proxy_keeps_named (w : World T) devname :
  pool_named w -> pool_named (snd (get_device_proxy devname w)).
Proof.
  unfold pool_named. intros Hnamed.
  unfold get_device_proxy, bind, get_device_proxies, lift.
  destruct (contains (device_proxies w) devname); [exact Hnamed|].
  unfold DeviceProxy_init, bind, remote, fresh, ret, set_device_proxies, lift.
  destruct (new_DeviceProxy T devname (env w)) as [[[]|e] env'];
    [|exact Hnamed].
  simpl. destruct (Nat.eqb (length (device_proxies w)) MAX_PROXIES).
  - destruct (index (keys (device_proxies w)) 0) as [oldest|e];
      [|exact Hnamed].
    simpl. unfold delitem.
    destruct (contains (device_proxies w) oldest); [|exact Hnamed].
    simpl. apply setitem_named. rewrite Forall_forall in *.
    intros x Hx. apply Hnamed. apply list_elem_of_In in Hx.
    apply filter_In in Hx as [Hx _]. now apply list_elem_of_In.
  - simpl. now apply setitem_named.
Qed.

(** X4: from the moment the module is loaded, and through any sequence of
    requests for proxies (pooled names, new names, names that fail to
    connect), [device_proxies] has unique keys, at most [MAX_PROXIES]
    entries, and under each key a proxy of the device of that name. *)
Theorem pool_invariant (e : E T) (names : list string) :
  let w := snd (serve (map get_device_proxy names) (snd (load (boot e)))) in
  pool_ok w /\ pool_named w.
Proof.
  destruct (load_pool_ok e) as [Hok Hnamed].
  revert Hok Hnamed. generalize (snd (load (boot e))). clear e.
  induction names as [|d names IH]; intros w Hok Hnamed; [now split|].
  simpl.
  pose proof (get_device_proxy_ok w d Hok) as Hok1.
  pose proof (get_device_proxy_keeps_named w d Hnamed) as Hnamed1.
  destruct (get_device_proxy d w) as [r w1]. simpl in Hok1, Hnamed1.
  specialize (IH w1 Hok1 Hnamed1). simpl in IH.
  destruct (serve (map get_device_proxy names) w1) as [rs w2]. exact IH.
Qed.

(** X5: the pool is first-in first-out, not least-recently-used: in a full
    pool, asking again for the oldest name returns its proxy and changes
    nothing, and the next new name still evicts that oldest entry, the one
    just used. *)
Theorem hit_does_not_refresh (w : World T) k p rest d' env' :
  pool_ok w ->
  device_proxies w = (k, p) :: rest ->
  length (device_proxies w) = MAX_PROXIES ->
  d' ∉ keys (device_proxies w) ->
  new_DeviceProxy T d' (env w) = (Ok tt, env') ->
  get_device_proxy k w = (Ok p, w) /\
  device_proxies (snd (get_device_proxy d' w)) =
    rest ++ [(d', mkDeviceProxy d' (created w))] /\
  k ∉ keys (device_proxies (snd (get_device_proxy d' w))).
Proof.
  intros Hok Hpool Hfull Hnew Hconn.
  assert (get_device_proxy d' w =
          (Ok (mkDeviceProxy d' (created w)),
           mkWorld env' (calls w ++ [NewDeviceProxy d']) (S (created w))
             (push_entry (device_proxies w) (d', mkDeviceProxy d' (created w)))
             (_methods w))) as Hrun
    by (apply get_miss_ok; [apply Hok|exact Hnew|exact Hconn]).
  split; [|split].
  - apply get_hit; [apply Hok|]. rewrite Hpool. apply elem_of_cons. now left.
  - rewrite Hrun. simpl. unfold push_entry.
    rewrite decide_True by exact Hfull. now rewrite Hpool.
  - rewrite Hrun. simpl. unfold push_entry.
    rewrite decide_True by exact Hfull. rewrite Hpool. simpl.
    destruct Hok as [Hnd _]. rewrite Hpool in Hnd, Hnew. simpl in Hnd, Hnew.
    apply NoDup_cons in Hnd as [Hk _].
    unfold keys. rewrite fmap_app. simpl. intros Hin.
    apply elem_of_app in Hin as [Hin|Hin]; [now apply Hk|].
    apply list_elem_of_singleton in Hin. subst d'.
    apply Hnew. apply elem_of_cons. now left.
Qed.

(** X6: a name that is not pooled and cannot be connected to costs one
    remote call and raises the failure of the connection; the pool is
    untouched, so even a full pool evicts nothing for it, no proxy object
    is made, and a second request tries the connection again. *)
Theorem failed_connection_keeps_pool (w : World T) devname e env' :
  pool_ok w ->
  devname ∉ keys (device_proxies w) ->
  new_DeviceProxy T devname (env w) = (Raise e, env') ->
  let w1 := snd (get_device_proxy devname w) in
  fst (get_device_proxy devname w) = Raise e /\
  device_proxies w1 = device_proxies w /\
  created w1 = created w /\
  calls w1 = calls w ++ [NewDeviceProxy devname] /\
  calls (snd (get_device_proxy devname w1)) =
    calls w ++ [NewDeviceProxy devname; NewDeviceProxy devname].
Proof.
  intros Hok Hnew Hconn. rewrite (get_miss_fail w devname e env' Hnew Hconn).
  simpl. split; [reflexivity|]. split; [reflexivity|].
  split; [reflexivity|]. split; [reflexivity|].
  set (w1 := mkWorld env' _ _ _ _).
  destruct (new_DeviceProxy T devname (env w1)) as [[[]|e'] env''] eqn:Hagain.
  - rewrite (get_miss_ok w1 devname env''); [|apply Hok|exact Hnew|exact Hagain].
    simpl. now rewrite <- app_assoc.
  - rewrite (get_miss_fail w1 devname e' env''); [|exact Hnew|exact Hagain].
    simpl. now rewrite <- app_assoc.
Qed.

End WithSystem.

Lemma hit_does_not_refresh_witness :
  let w := snd (for_each get_device_proxy (Mock.devices 100)
                  (Mock.start (Mock.mkEnv 0 0))) in
  let oldest := mkDeviceProxy (Mock.device 0) 0 in
  (length (device_proxies w) = MAX_PROXIES /\
   Mock.device 100 ∉ keys (device_proxies w)) /\
  get_device_proxy (Mock.device 0) w = (Ok oldest, w) /\
  Mock.device 0 ∉
    keys (device_proxies (snd (get_device_proxy (Mock.device 100) w))).
Proof.
  intros w oldest.
  assert (length (device_proxies w) = MAX_PROXIES) as Hfull
    by (vm_compute; reflexivity).
  assert (Mock.device 100 ∉ keys (device_proxies w)) as Hnew.
  { apply (bool_decide_unpack (Mock.device 100 ∉ keys (device_proxies w))).
    vm_compute. exact I. }
  assert (pool_ok w) as Hok.
  { split; [|rewrite Hfull; lia].
    apply (bool_decide_unpack (NoDup (keys (device_proxies w)))).
    vm_compute. exact I. }
  destruct (hit_does_not_refresh (T:=Mock.system) w (Mock.device 0) oldest
              (tail (device_proxies w)) (Mock.device 100) (env w))
    as (Hhit & _ & Hgone).
  - exact Hok.
  - vm_compute. reflexivity.
  - exact Hfull.
  - exact Hnew.
  - vm_compute. reflexivity.
  - split; [split; [exact Hfull|exact Hnew]|]. split; [exact Hhit|exact Hgone].
Defined.

Lemma failed_connection_keeps_pool_witness :
  let w := Mock.start (Mock.mkEnv 0 0) in
  let w1 := snd (get_device_proxy "x/y/z" w) in
  fst (get_device_proxy "x/y/z" w) = Raise (Mock.failure "API_DeviceNotDefined") /\
  device_proxies w1 = [] /\
  calls (snd (get_device_proxy "x/y/z" w1)) =
    [NewDeviceProxy "x/y/z"; NewDeviceProxy "x/y/z"].
Proof.
  intros w w1.
  destruct (failed_connection_keeps_pool (T:=Mock.system) w "x/y/z"
              (Mock.failure "API_DeviceNotDefined") (Mock.mkEnv 0 0))
    as (H1 & H2 & _ & _ & H5).
  - split; [apply NoDup_nil_2|simpl; lia].
  - apply not_elem_of_nil.
  - vm_compute. reflexivity.
  - split; [exact H1|]. split; [exact H2|exact H5].
Defined.

End PoolMore.

(** ** More on the cache of database reads *)

Module CacheMore.
Import Cache CacheFacts.

Section WithSystem.
Context {T : System}.

(** X8: a cached method called with an argument that is a list cannot
    look its arguments up: the call raises [TypeError] before anything is
    asked of the database, with or without a cache object in place. *)
Theorem cached_method_rejects_lists name args (w : World T) :
  startswith name "Get" = true ->
  TTLDict.hashable args = false ->
  fst (query db name args w) = Raise TypeError /\
  calls (snd (query db name args w)) = calls w /\
  env (snd (query db name args w)) = env w.
Proof.
  intros Hget Hh. unfold query, CachedDatabase_getattr, bind at 1.
  rewrite Hget. change (negb true) with false. cbv beta iota.
  unfold bind, get_methods, set_methods, ret.
  destruct (_methods w !! name) as [this|] eqn:Hobj; unfold call.
  - rewrite (call_unhashable _ name this args); [now repeat split| |exact Hh].
    exact Hobj.
  - rewrite (call_unhashable _ name (CachedMethod_init name (_ttl db)) args);
      [now repeat split| |exact Hh].
    simpl. apply lookup_insert_eq.
Qed.

Lemma stored_other (w : World T) self this args value self' this' args' :
  _methods w !! self = Some this ->
  _methods w !! self' = Some this' ->
  (self', args') <> (self, args) ->
  exists this1,
    _methods (stored w self this args value) !! self' = Some this1 /\
    method this1 = method this' /\
    forall now,
      TTLDict.live (cache this1) now args' = TTLDict.live (cache this') now args'.
Proof.
  intros Hs Hs' Hne. unfold stored. simpl.
  destruct (decide (self = self')) as [<-|Hself].
  - rewrite lookup_insert_eq. eexists. split; [reflexivity|].
    rewrite Hs in Hs'. inversion Hs'; subst this'. split; [reflexivity|].
    intros now. unfold TTLDict.live. simpl.
    rewrite lookup_insert_ne; [reflexivity|]. intros ->. now apply Hne.
  - rewrite lookup_insert_ne by exact Hself. exists this'. now repeat split.
Qed.

(** X9: entries are kept per method and per argument tuple: whatever a
    fetch of one signature does (return a cached answer, store a new one,
    raise), every other signature, of the same method or of another, is
    left exactly as live or as absent as it was. *)
Theorem signatures_are_independent (w : World T) self this args
    self' this' args' :
  _methods w !! self = Some this ->
  _methods w !! self' = Some this' ->
  (self', args') <> (self, args) ->
  exists this1,
    _methods (snd (CachedMethod_call self args w)) !! self' = Some this1 /\
    method this1 = method this' /\
    forall now,
      TTLDict.live (cache this1) now args' = TTLDict.live (cache this') now args'.
Proof.
  intros Hs Hs' Hne.
  destruct (TTLDict.hashable args) eqn:Hh.
  2:{ rewrite (call_unhashable w self this args Hs Hh).
      exists this'. now repeat split. }
  destruct (TTLDict.live (cache this) (clock T (env w)) args) as [v|] eqn:Hl.
  { rewrite (call_hit w self this args v Hs Hh Hl).
    exists this'. now repeat split. }
  destruct (command_inout T "sys/database/2" (method this) args (env w))
    as [[value|e] env'] eqn:Hc.
  - rewrite (call_miss_ok w self this args value env' Hs Hh Hl Hc). simpl snd.
    now apply stored_other.
  - rewrite (call_miss_raise w self this args e env' Hs Hh Hl Hc).
    exists this'. now repeat split.
Qed.

Lemma query_registered name args this (w : World T) :
  startswith name "Get" = true ->
  _methods w !! name = Some this ->
  query db name args w = CachedMethod_call name args w.
Proof.
  intros Hget Hobj. unfold query, CachedDatabase_getattr, bind at 1.
  rewrite Hget. change (negb true) with false. cbv beta iota.
  unfold bind, get_methods, set_methods, ret. now rewrite Hobj.
Qed.

(** X7: a method of [db] whose name does start with ["Get"] is cached for
    the ttl of [db]: the first request with hashable arguments makes the
    cache object, issues the one call and stores the answer at the time the
    call returned; a request with the same arguments less than the ttl
    later is answered with the stored answer and changes nothing, so issues
    no call; a request the ttl or more later issues the call again. *)
Theorem cached_query_window name args value env' (w : World T) :
  let c := inner_call name args in
  let w1 := snd (query db name args w) in
  startswith name "Get" = true ->
  TTLDict.hashable args = true ->
  _methods w !! name = None ->
  command_inout T "sys/database/2" name args (env w) = (Ok value, env') ->
  fst (query db name args w) = Ok value /\
  calls w1 = calls w ++ [c] /\
  (forall w2 : World T, _methods w2 = _methods w1 ->
     clock T (env w2) - clock T env' < _ttl db ->
     query db name args w2 = (Ok value, w2)) /\
  (forall w3 : World T, _methods w3 = _methods w1 ->
     _ttl db <= clock T (env w3) - clock T env' ->
     calls (snd (query db name args w3)) = calls w3 ++ [c]).
Proof.
  intros c w1 Hget Hh Hnone Hc.
  set (this := CachedMethod_init name (_ttl db)).
  set (w0 := mkWorld (env w) (calls w) (created w) (device_proxies w)
               (<[name := this]> (_methods w))).
  assert (query db name args w =
          (Ok value,
           stored (called w0 (inner_call name args) env') name this args value))
    as Hfirst.
  { unfold query, CachedDatabase_getattr, bind at 1. rewrite Hget.
    change (negb true) with false. cbv beta iota.
    unfold bind, get_methods, set_methods, ret. rewrite Hnone.
    unfold call. fold w0.
    apply (call_miss_ok w0 name this args value env'); try assumption.
    - unfold w0. simpl. apply lookup_insert_eq.
    - unfold this, CachedMethod_init, TTLDict.live, TTLDict.init. simpl.
      now rewrite lookup_empty. }
  assert (forall w2 : World T, _methods w2 = _methods w1 ->
            _methods w2 !! name =
            Some (mkCachedMethod
                    (TTLDict.mk (_ttl db)
                       (<[args := (value, clock T env')]> ∅))
                    name)) as Hobj.
  { intros w2 ->. unfold w1. rewrite Hfirst. unfold stored. simpl.
    apply lookup_insert_eq. }
  split; [now rewrite Hfirst|]. split; [unfold w1; now rewrite Hfirst|]. split.
  - intros w2 Hm Hin.
    rewrite (query_registered name args _ w2 Hget (Hobj w2 Hm)).
    apply (call_hit w2 name _ args value (Hobj w2 Hm) Hh).
    unfold TTLDict.live. simpl. rewrite lookup_insert_eq.
    change (_ttl db) with 10 in Hin.
    destruct (_ <? _) eqn:E; [reflexivity|lia].
  - intros w3 Hm Hout.
    rewrite (query_registered name args _ w3 Hget (Hobj w3 Hm)).
    apply (call_miss_calls w3 name _ args (Hobj w3 Hm) Hh).
    unfold TTLDict.live. simpl. rewrite lookup_insert_eq.
    change (_ttl db) with 10 in Hout.
    destruct (_ <? _) eqn:E; [lia|reflexivity].
Qed.

End WithSystem.

Lemma cached_query_window_witness :
  let w := Mock.start (Mock.mkEnv 1000 50) in
  let ask := query (T:=Mock.system) db "GetDeviceList" [AStr "*"] in
  let c := inner_call "GetDeviceList" [AStr "*"] in
  let w1 := snd (ask w) in
  (startswith "GetDeviceList" "Get" = true /\
   TTLDict.hashable [AStr "*"] = true) /\
  fst (ask w) = Ok ["a/b/c"; "50"] /\
  calls w1 = [c] /\
  ask (Mock.later 9 w1) = (Ok ["a/b/c"; "50"], Mock.later 9 w1) /\
  calls (snd (ask (Mock.later 10 w1))) = [c; c].
Proof.
  intros w ask c w1. split; [split; reflexivity|].
  destruct (cached_query_window (T:=Mock.system) "GetDeviceList" [AStr "*"]
              ["a/b/c"; "50"] (Mock.mkEnv 1001 50) w)
    as (H1 & H2 & H3 & H4).
  - reflexivity.
  - reflexivity.
  - vm_compute. reflexivity.
  - vm_compute. reflexivity.
  - split; [exact H1|]. split; [exact H2|]. split.
    + apply (H3 (Mock.later 9 w1)); [reflexivity|]. vm_compute. reflexivity.
    + apply (H4 (Mock.later 10 w1)); [reflexivity|]. vm_compute.
      discriminate.
Defined.

Lemma cached_method_rejects_lists_witness :
  let w := Mock.start (Mock.mkEnv 1000 50) in
  let out := query db "GetDevicePropertyList" [AList ["a/b/c"; "*"]] w in
  TTLDict.hashable [AList ["a/b/c"; "*"]] = false /\
  fst out = Raise TypeError /\ calls (snd out) = [] /\
  env (snd out) = Mock.mkEnv 1000 50.
Proof.
  intros w out. split; [reflexivity|].
  apply (cached_method_rejects_lists (T:=Mock.system) "GetDevicePropertyList"
           [AList ["a/b/c"; "*"]] w); reflexivity.
Defined.

Lemma signatures_are_independent_witness :
  let this := CachedMethod_init "GetDeviceList" 10 in
  let w := Mock.with_method "GetDeviceList" (Mock.mkEnv 1000 50) in
  let w1 := snd (CachedMethod_call "GetDeviceList" [AStr "a*"] w) in
  ("GetDeviceList", [AStr "b*"]) <> ("GetDeviceList", [AStr "a*"]) /\
  exists this1,
    _methods w1 !! "GetDeviceList" = Some this1 /\
    method this1 = "GetDeviceList" /\
    forall now, TTLDict.live (cache this1) now [AStr "b*"] = None.
Proof.
  intros this w w1.
  assert (("GetDeviceList", [AStr "b*"]) <> ("GetDeviceList", [AStr "a*"]))
    as Hne by discriminate.
  split; [exact Hne|].
  destruct (signatures_are_independent (T:=Mock.system) w "GetDeviceList" this
              [AStr "a*"] "GetDeviceList" this [AStr "b*"])
    as (this1 & H1 & H2 & H3).
  - vm_compute. reflexivity.
  - vm_compute. reflexivity.
  - exact Hne.
  - exists this1. split; [exact H1|]. split; [exact H2|].
    intros now. rewrite H3. reflexivity.
Defined.

End CacheMore.

(** ** More on the attribute routes *)

Module BridgeMore.
Import Bridge BridgeFacts.

Section WithSystem.
Context {T : System}.

(** A loop stops at the first element whose body raises: the elements
    before it have run, those after it never do. *)
Lemma for_each_raise {A B} (f : A -> M T B) (done : list A) x rest :
  forall (w w1 w2 : World T) ys e,
    for_each f done w = (Ok ys, w1) ->
    f x w1 = (Raise e, w2) ->
    for_each f (done ++ x :: rest) w = (Raise e, w2).
Proof.
  induction done as [|d done IH]; intros w w1 w2 ys e Hdone Hx.
  - inversion Hdone; subst. simpl. unfold bind at 1. now rewrite Hx.
  - simpl in *. unfold bind at 1 in Hdone. unfold bind at 1.
    destruct (f d w) as [[y|e'] w'] eqn:Hd; [|discriminate Hdone].
    unfold bind at 1 in Hdone. unfold bind at 1.
    destruct (for_each f done w') as [[ys'|e'] w''] eqn:Hrest;
      [|discriminate Hdone].
    inversion Hdone; subst.
    now rewrite (IH w' w1 w2 ys' e Hrest Hx).
Qed.

(** X11: a PUT on several attributes writes them one after the other, in
    the order of the descriptors; when the write or the read-back of one
    of them raises, the route raises that exception and stops in the state
    that the attributes before it were written in: nothing is undone and
    nothing after it is tried. *)
Theorem put_stops_at_first_failure (w w1 w2 w3 w4 : World T) request
    domain family member proxy done info rest results e :
  http_method request = PUT ->
  Pool.get_device_proxy (device_name domain family member) w = (Ok proxy, w1) ->
  proxy_get_attribute_config_list proxy (map fst (args request)) w1 =
    (Ok (done ++ info :: rest), w2) ->
  for_each (put_attribute request proxy) done w2 = (Ok results, w3) ->
  put_attribute request proxy info w3 = (Raise e, w4) ->
  get_put_device_attributes request domain family member w = (Raise e, w4).
Proof.
  intros Hput Hproxy Hconf Hdone Hfail.
  rewrite (get_put_device_attributes_put w w1 request domain family member
             proxy Hput Hproxy).
  unfold bind at 1. rewrite Hconf. unfold bind at 1.
  now rewrite (for_each_raise _ done info rest w2 w3 w4 results e Hdone Hfail).
Qed.

(** X12: when the device of a request cannot be connected to, both
    attribute routes answer with the error envelope: the errors of the
    failure in the order they came in, each with reason, description,
    severity and origin, the quality ["FAILURE"], the time of the answer
    and status 500; nothing else is called. *)
Theorem unreachable_device_envelope (w w1 : World T) request
    domain family member attribute errors :
  Pool.get_device_proxy (device_name domain family member) w =
    (Raise (DevFailed errors), w1) ->
  let envelope :=
    mkResponse
      (ErrorEnvelope (map stringify_error errors) "FAILURE" (clock T (env w1)))
      500 in
  get_device_attribute request domain family member attribute w =
    (Ok envelope, w1) /\
  get_put_device_attributes request domain family member w =
    (Ok envelope, w1).
Proof.
  intros Hproxy envelope. split.
  - unfold get_device_attribute. unfold bind at 1, try_DevFailed.
    now rewrite Hproxy.
  - unfold get_put_device_attributes. unfold bind at 1, try_DevFailed.
    now rewrite Hproxy.
Qed.

End WithSystem.

Lemma put_attribute_write_then_read_back_witness :
  let w := @mkWorld Mock.system (Mock.mkEnv 1000 50) [] 1
             [("a/b/c", mkDeviceProxy "a/b/c" 0)] ∅ in
  let request := mkRequest PUT [("level", ["150"]); ("setpoint", ["-3"])] in
  let proxy := mkDeviceProxy "a/b/c" 0 in
  let combined := put_attribute request proxy (Mock.config "level") w in
  let separate := put_attribute request proxy (Mock.config "setpoint") w in
  (calls (snd combined) = [WriteReadAttribute "a/b/c" "level" (PInt 150)] /\
   fst combined =
     Ok (mkAttributeValue "level" (PInt 100) "ATTR_VALID" 1000 "...")) /\
  (calls (snd separate) =
     [WriteAttribute "a/b/c" "setpoint" (PInt (-3));
      ReadAttribute "a/b/c" "setpoint"] /\
   fst separate =
     Ok (mkAttributeValue "setpoint" (PInt 0) "ATTR_VALID" 1000 "...")).
Proof.
  intros w request proxy combined separate. split.
  - destruct (put_attribute_write_then_read_back (T:=Mock.system) w request
                proxy (Mock.config "level") "150" (PInt 150))
      as [Hcombined _].
    + reflexivity.
    + vm_compute. reflexivity.
    + apply (Hcombined eq_refl
               (Ok (mkDeviceAttribute "level" (PInt 100) ATTR_VALID 1000))
               (Mock.mkEnv 1000 100)).
      vm_compute. reflexivity.
  - destruct (put_attribute_write_then_read_back (T:=Mock.system) w request
                proxy (Mock.config "setpoint") "-3" (PInt (-3)))
      as [_ Hseparate].
    + reflexivity.
    + vm_compute. reflexivity.
    + destruct (Hseparate eq_refl) as [_ Hread].
      apply (Hread (Mock.mkEnv 1000 0)
               (Ok (mkDeviceAttribute "setpoint" (PInt 0) ATTR_VALID 1000))
               (Mock.mkEnv 1000 0)).
      * vm_compute. reflexivity.
      * vm_compute. reflexivity.
Defined.

Lemma put_stops_at_first_failure_witness :
  let w := Mock.start (Mock.mkEnv 1000 50) in
  let request :=
    mkRequest PUT [("level", ["7"]); ("locked", ["5"]); ("setpoint", ["9"])] in
  let out := get_put_device_attributes request "a" "b" "c" w in
  fst out = Raise (Mock.failure "API_AttrNotWritable") /\
  env (snd out) = Mock.mkEnv 1000 7 /\
  calls (snd out) =
    [NewDeviceProxy "a/b/c";
     GetAttributeConfigList "a/b/c" ["level"; "locked"; "setpoint"];
     WriteReadAttribute "a/b/c" "level" (PInt 7);
     WriteReadAttribute "a/b/c" "locked" (PInt 5)].
Proof.
  intros w request out.
  set (proxy := mkDeviceProxy "a/b/c" 0).
  set (pool := [("a/b/c", proxy)]).
  set (c0 := [NewDeviceProxy "a/b/c"]).
  set (c1 := c0 ++ [GetAttributeConfigList "a/b/c"
                      ["level"; "locked"; "setpoint"]]).
  set (c2 := c1 ++ [WriteReadAttribute "a/b/c" "level" (PInt 7)]).
  set (c3 := c2 ++ [WriteReadAttribute "a/b/c" "locked" (PInt 5)]).
  assert (out = (Raise (Mock.failure "API_AttrNotWritable"),
                 @mkWorld Mock.system (Mock.mkEnv 1000 7) c3 1 pool ∅)) as ->.
  { apply (put_stops_at_first_failure (T:=Mock.system) w
             (@mkWorld Mock.system (Mock.mkEnv 1000 50) c0 1 pool ∅)
             (@mkWorld Mock.system (Mock.mkEnv 1000 50) c1 1 pool ∅)
             (@mkWorld Mock.system (Mock.mkEnv 1000 7) c2 1 pool ∅)
             (@mkWorld Mock.system (Mock.mkEnv 1000 7) c3 1 pool ∅)
             request "a" "b" "c" proxy
             [Mock.config "level"] (Mock.config "locked")
             [Mock.config "setpoint"]
             [mkAttributeValue "level" (PInt 7) "ATTR_VALID" 1000 "..."]).
    - reflexivity.
    - vm_compute. reflexivity.
    - vm_compute. reflexivity.
    - vm_compute. reflexivity.
    - vm_compute. reflexivity. }
  repeat split.
Defined.

Lemma unreachable_device_envelope_witness :
  let w := Mock.start (Mock.mkEnv 1000 50) in
  let w1 := @mkWorld Mock.system (Mock.mkEnv 1000 50)
              [NewDeviceProxy "x/y/z"] 0 [] ∅ in
  let envelope :=
    mkResponse
      (ErrorEnvelope
         [mkErrorRecord "API_DeviceNotDefined" "mock failure" "ERR" "Mock"]
         "FAILURE" 1000)
      500 in
  get_device_attribute (mkRequest GET []) "x" "y" "z" "level" w =
    (Ok envelope, w1) /\
  get_put_device_attributes (mkRequest PUT [("level", ["7"])]) "x" "y" "z" w =
    (Ok envelope, w1).
Proof.
  intros w w1 envelope.
  assert (Pool.get_device_proxy (device_name "x" "y" "z") w =
          (Raise (Mock.failure "API_DeviceNotDefined"), w1)) as Hproxy
    by (vm_compute; reflexivity).
  split.
  - apply (unreachable_device_envelope (T:=Mock.system) w w1 (mkRequest GET [])
             "x" "y" "z" "level" _ Hproxy).
  - apply (unreachable_device_envelope (T:=Mock.system) w w1
             (mkRequest PUT [("level", ["7"])]) "x" "y" "z" "level" _ Hproxy).
Defined.

End BridgeMore.

(** ** The property routes *)

Module PropsFacts.
Import Codec Cache Bridge Props CodecFacts CacheFacts.

Section WithSystem.
Context {T : System}.

(** A query of a method whose name does not start with ["Get"] is the
    remote call and nothing else. *)
Lemma plain_query_run name args (w : World T) r e :
  startswith name "Get" = false ->
  command_inout T "sys/database/2" name args (env w) = (r, e) ->
  query db name args w = (r, called w (inner_call name args) e).
Proof.
  intros Hname Hrun. rewrite (query_plain db name args w Hname).
  unfold db_method, remote. now rewrite Hrun.
Qed.

(** The sequence that [read_write_device_property] builds by hand decodes
    to the one property. *)
Lemma decode_one device prop (value : list string) :
  decode_device_properties
    ([device; "1"; prop; str_int (Z.of_nat (length value))] ++ value) =
  Ok [mkProperty prop value].
Proof.
  pose proof (decode_encode_app device (byte_strings [(prop, value)]) _ []
                (encode_flat _ _ (encodable_byte_strings _))) as H.
  unfold properties_of, flat in H. simpl in H.
  rewrite text_Str, length_map, !app_nil_r in H. exact H.
Qed.

(** X13: a PUT or POST on one property sends the database the device
    name, the count ["1"], the name of the property, the number of values
    and the values of the query as they are, then reads the property back;
    when the database returns what was put, the answer is that property
    with those values, in their order. *)
Theorem property_put_round_trip (w : World T) request
    domain family member prop reply env1 env2 :
  let device := device_name domain family member in
  let value := args_getlist (args request) "value" in
  let sent :=
    [device; "1"; prop; str_int (Z.of_nat (length value))] ++ value in
  let out := read_write_device_property request domain family member prop w in
  http_method request = PUT \/ http_method request = POST ->
  command_inout T "sys/database/2" "DbPutDeviceProperty" [AList sent] (env w) =
    (Ok reply, env1) ->
  command_inout T "sys/database/2" "DbGetDeviceProperty"
    [AList [device; prop]] env1 = (Ok sent, env2) ->
  fst out = Ok (Properties [mkProperty prop value]) /\
  calls (snd out) =
    calls w ++ [inner_call "DbPutDeviceProperty" [AList sent];
                inner_call "DbGetDeviceProperty" [AList [device; prop]]].
Proof.
  intros device value sent out Hmethod Hput Hget.
  assert (out =
          (Ok (Properties [mkProperty prop value]),
           called
             (called w (inner_call "DbPutDeviceProperty" [AList sent]) env1)
             (inner_call "DbGetDeviceProperty" [AList [device; prop]]) env2))
    as ->.
  { unfold out, read_write_device_property.
    fold device value sent.
    assert (forall m : M T unit,
              m = (Cache.query Cache.db "DbPutDeviceProperty" [AList sent] ;;;
                   ret tt) ->
              (m ;;;
               data <- Cache.query Cache.db "DbGetDeviceProperty"
                         [AList [device; prop]] ;;
               result <- lift (decode_device_properties data) ;;
               ret (Properties result)) w =
              (Ok (Properties [mkProperty prop value]),
               called
                 (called w (inner_call "DbPutDeviceProperty" [AList sent]) env1)
                 (inner_call "DbGetDeviceProperty" [AList [device; prop]])
                 env2)) as Hrun.
    { intros m ->. unfold bind at 1. unfold bind at 1.
      rewrite (plain_query_run "DbPutDeviceProperty" _ w (Ok reply) env1
                 eq_refl Hput).
      unfold ret at 1. unfold bind at 1.
      rewrite (plain_query_run "DbGetDeviceProperty" _
                 (called w (inner_call "DbPutDeviceProperty" [AList sent]) env1)
                 (Ok sent) env2 eq_refl Hget).
      unfold bind, lift, ret.
      unfold sent. now rewrite decode_one. }
    destruct Hmethod as [-> | ->]; now apply Hrun. }
  simpl. rewrite <- app_assoc. split; reflexivity.
Qed.

(** X14: the two property routes disagree on an empty answer of the
    database: [get_device_properties] returns the empty body, and
    [read_write_device_property] goes on to decode it and raises
    [IndexError]. *)
Theorem empty_database_answer dict_items (w : World T) request
    domain family member prop props env1 env2 :
  let device := device_name domain family member in
  http_method request = GET ->
  command_inout T "sys/database/2" "DbGetDevicePropertyList"
    [AList [device; args_get_default (args request) "wildcard" "*"]] (env w) =
    (Ok props, env1) ->
  command_inout T "sys/database/2" "DbGetDeviceProperty"
    [AList (device :: props)] env1 = (Ok [], env2) ->
  command_inout T "sys/database/2" "DbGetDeviceProperty"
    [AList [device; prop]] (env w) = (Ok [], env2) ->
  fst (get_device_properties dict_items request domain family member w) =
    Ok (Body EmptyString) /\
  fst (read_write_device_property request domain family member prop w) =
    Raise IndexError.
Proof.
  intros device Hget Hlist Hall Hone. subst device. split.
  - unfold get_device_properties. rewrite Hget. unfold bind at 1.
    rewrite (plain_query_run "DbGetDevicePropertyList" _ w (Ok props) env1
               eq_refl Hlist).
    unfold bind at 1.
    now rewrite (plain_query_run "DbGetDeviceProperty" _
                   (called w (inner_call "DbGetDevicePropertyList" _) env1)
                   (Ok []) env2 eq_refl Hall).
  - unfold read_write_device_property. rewrite Hget.
    unfold bind at 1, ret at 1. unfold bind at 1.
    now rewrite (plain_query_run "DbGetDeviceProperty" _ w (Ok []) env2
                   eq_refl Hone).
Qed.

(** X15: a GET on the properties of a device asks the database for the
    names that match the wildcard (["*"] when the query has none), then for
    the values of exactly those names, and decodes the answer: when the
    database answers with the encoding of a dict, the route returns the
    properties of that dict. *)
Theorem get_properties_round_trip dict_items (w : World T) request
    domain family member props data sequence env1 env2 :
  let device := device_name domain family member in
  let wildcard := args_get_default (args request) "wildcard" "*" in
  let out := get_device_properties dict_items request domain family member w in
  http_method request = GET ->
  command_inout T "sys/database/2" "DbGetDevicePropertyList"
    [AList [device; wildcard]] (env w) = (Ok props, env1) ->
  encode_device_properties device data = Ok sequence ->
  command_inout T "sys/database/2" "DbGetDeviceProperty"
    [AList (device :: props)] env1 = (Ok sequence, env2) ->
  fst out = Ok (Properties (properties_of data)) /\
  calls (snd out) =
    calls w ++ [inner_call "DbGetDevicePropertyList" [AList [device; wildcard]];
                inner_call "DbGetDeviceProperty" [AList (device :: props)]].
Proof.
  intros device wildcard out Hget Hlist Henc Hall.
  assert (out =
          (Ok (Properties (properties_of data)),
           called
             (called w
                (inner_call "DbGetDevicePropertyList" [AList [device; wildcard]])
                env1)
             (inner_call "DbGetDeviceProperty" [AList (device :: props)]) env2))
    as ->.
  { unfold out, get_device_properties. rewrite Hget. unfold bind at 1.
    fold device wildcard.
    rewrite (plain_query_run "DbGetDevicePropertyList" _ w (Ok props) env1
               eq_refl Hlist).
    unfold bind at 1.
    rewrite (plain_query_run "DbGetDeviceProperty" _
               (called w (inner_call "DbGetDevicePropertyList" _) env1)
               _ env2 eq_refl Hall).
    pose proof (decode_encode_app device data sequence [] Henc) as Hdec.
    rewrite app_nil_r in Hdec.
    destruct sequence as [|x sequence].
    { apply encode_Ok in Henc as [_ Henc]. discriminate Henc. }
    unfold bind, lift, ret. now rewrite Hdec. }
  simpl. rewrite <- app_assoc. split; reflexivity.
Qed.

Lemma args_getlist_skip (pre l : list (string * list string)) key :
  key ∉ map fst pre ->
  args_getlist (pre ++ l) key = args_getlist l key.
Proof.
  unfold args_getlist. induction pre as [|[k vs] pre IH]; intros Hk;
    [reflexivity|].
  simpl in *. apply not_elem_of_cons in Hk as [Hne Hk].
  destruct (String.eqb_spec k key) as [->|_]; [congruence|]. now apply IH.
Qed.

(** With one entry per key, the items that the route collects are the
    query itself. *)
Lemma collected_items (l : list (string * list string)) : forall pre,
  NoDup (map fst (pre ++ l)) ->
  map (fun prop => (prop, args_getlist (pre ++ l) prop)) (map fst l) = l.
Proof.
  induction l as [|[k vs] l IH]; intros pre Hnd; [reflexivity|].
  simpl. f_equal.
  - f_equal. rewrite args_getlist_skip.
    + unfold args_getlist. simpl. now rewrite String.eqb_refl.
    + rewrite map_app in Hnd. apply NoDup_app in Hnd as (_ & Hdis & _).
      intros Hin. apply (Hdis k Hin). simpl. apply elem_of_cons. now left.
  - specialize (IH (pre ++ [(k, vs)])). rewrite <- app_assoc in IH.
    now apply IH.
Qed.

(** X16: a PUT or POST on the properties of a device, for a query with one
    entry per key.  The values of the query are unicode objects.  When
    they are all made of ASCII characters, the route writes every key as a
    property with all the values of that key in their order (the
    properties in the order of the dict), and then reads back the keys of
    the query in their order, whatever the database answered to the write
    of its own accord.  When any value has a character that is not ASCII,
    the route raises [UnicodeEncodeError] and nothing was asked of the
    database. *)
Theorem put_properties_sends_query dict_items (w : World T) request
    domain family member :
  let device := device_name domain family member in
  let data := unicode_strings (dict_items (args request)) in
  let out := get_device_properties dict_items request domain family member w in
  http_method request = PUT \/ http_method request = POST ->
  NoDup (map fst (args request)) ->
  dict_items (args request) ≡ₚ args request ->
  (encodable (unicode_strings (args request)) = true ->
   exists sent,
     encode_device_properties device data = Ok sent /\
     decode_device_properties sent = Ok (properties_of data) /\
     properties_of data ≡ₚ properties_of (unicode_strings (args request)) /\
     forall reply env1,
       command_inout T "sys/database/2" "DbPutDeviceProperty" [AList sent]
         (env w) = (Ok reply, env1) ->
       calls (snd out) =
         calls w ++ [inner_call "DbPutDeviceProperty" [AList sent];
                     inner_call "DbGetDeviceProperty"
                       [AList (device :: map fst (args request))]]) /\
  (encodable (unicode_strings (args request)) = false ->
   out = (Raise UnicodeEncodeError, w)).
Proof.
  intros device data out Hmethod Hnd Hperm.
  assert (out =
          (props <-
             (sent <- lift (encode_device_properties device data) ;;
              Cache.query Cache.db "DbPutDeviceProperty" [AList sent] ;;;
              ret (map fst (args request))) ;;
           data <- Cache.query Cache.db "DbGetDeviceProperty"
                     [AList (device :: props)] ;;
           match data with
           | [] => ret (Body EmptyString)
           | _ :: _ =>
               result <- lift (decode_device_properties data) ;;
               ret (Properties result)
           end) w) as Hout.
  { pose proof (collected_items (args request) [] Hnd) as Hitems.
    simpl in Hitems.
    unfold out, get_device_properties. cbv zeta. rewrite Hitems.
    fold device data.
    destruct Hmethod as [-> | ->]; reflexivity. }
  assert (encodable data = encodable (unicode_strings (args request)))
    as Hsame.
  { apply encodable_Permutation. unfold data, unicode_strings.
    now apply fmap_Permutation. }
  split.
  - intros Hable. rewrite <- Hsame in Hable.
    pose proof (encode_flat device data Hable) as Henc.
    eexists. split; [exact Henc|]. split; [|split].
    + pose proof (decode_encode_app device data _ [] Henc) as Hdec.
      now rewrite app_nil_r in Hdec.
    + unfold properties_of, data, unicode_strings.
      now do 2 apply fmap_Permutation.
    + intros reply env1 Hput. rewrite Hout.
      unfold bind at 1. unfold bind at 1. unfold lift at 1.
      rewrite Henc. cbv beta iota. unfold bind at 1.
      rewrite (plain_query_run "DbPutDeviceProperty" _ w (Ok reply) env1
                 eq_refl Hput).
      unfold ret at 1. unfold bind at 1.
      destruct (command_inout T "sys/database/2" "DbGetDeviceProperty"
                  [AList (device :: map fst (args request))] env1)
        as [r env2] eqn:Hget.
      rewrite (plain_query_run "DbGetDeviceProperty" _
                 (called w (inner_call "DbPutDeviceProperty" _) env1)
                 r env2 eq_refl Hget).
      destruct r as [[|x answer]|e]; simpl; rewrite <- ?app_assoc;
        try reflexivity.
      unfold bind, lift, ret.
      destruct (decode_device_properties (x :: answer)); simpl;
        now rewrite <- app_assoc.
  - intros Hable. rewrite <- Hsame in Hable. rewrite Hout.
    unfold bind at 1. unfold bind at 1. unfold lift at 1.
    now rewrite (encode_raise device data Hable).
Qed.

(** X17: a write that the database refuses is not followed by a read: both
    property routes leave by the exception of the write, with that one
    call made. *)
Theorem refused_property_write dict_items (w : World T) request
    domain family member prop e env1 :
  let device := device_name domain family member in
  let one :=
    [AList ([device; "1"; prop;
             str_int (Z.of_nat (length (args_getlist (args request) "value")))]
            ++ args_getlist (args request) "value")] in
  let data :=
    unicode_strings
      (dict_items
         (map (fun prop => (prop, args_getlist (args request) prop))
            (map fst (args request)))) in
  http_method request = PUT \/ http_method request = POST ->
  (command_inout T "sys/database/2" "DbPutDeviceProperty" one (env w) =
     (Raise e, env1) ->
   read_write_device_property request domain family member prop w =
     (Raise e, called w (inner_call "DbPutDeviceProperty" one) env1)) /\
  (forall sent,
     encode_device_properties device data = Ok sent ->
     command_inout T "sys/database/2" "DbPutDeviceProperty" [AList sent]
       (env w) = (Raise e, env1) ->
     get_device_properties dict_items request domain family member w =
       (Raise e,
        called w (inner_call "DbPutDeviceProperty" [AList sent]) env1)).
Proof.
  intros device one data Hmethod. split.
  - intros Hput. unfold read_write_device_property. fold device one.
    destruct Hmethod as [-> | ->]; unfold bind at 1; unfold bind at 1;
      now rewrite (plain_query_run "DbPutDeviceProperty" _ w (Raise e) env1
                     eq_refl Hput).
  - intros sent Henc Hput. unfold get_device_properties. fold device data.
    destruct Hmethod as [-> | ->]; unfold bind at 1; unfold bind at 1;
      unfold lift at 1; rewrite Henc; cbv beta iota; unfold bind at 1;
      now rewrite (plain_query_run "DbPutDeviceProperty" _ w (Raise e) env1
                     eq_refl Hput).
Qed.

End WithSystem.

End PropsFacts.

Module PropsWitness.
Import Codec Cache Bridge Props PropsFacts.

Lemma property_put_round_trip_witness :
  let w := MockDb.start [] in
  let request := mkRequest PUT [("value", ["0"; "100"])] in
  let out := read_write_device_property request "a" "b" "c" "Limits" w in
  fst out = Ok (Properties [mkProperty "Limits" ["0"; "100"]]) /\
  calls (snd out) =
    [inner_call "DbPutDeviceProperty"
       [AList ["a/b/c"; "1"; "Limits"; "2"; "0"; "100"]];
     inner_call "DbGetDeviceProperty" [AList ["a/b/c"; "Limits"]]].
Proof.
  intros w request out.
  apply (property_put_round_trip (T:=MockDb.system) w request "a" "b" "c"
           "Limits" [] ["a/b/c"; "1"; "Limits"; "2"; "0"; "100"]
           ["a/b/c"; "1"; "Limits"; "2"; "0"; "100"]).
  - left. reflexivity.
  - vm_compute. reflexivity.
  - vm_compute. reflexivity.
Defined.

Lemma empty_database_answer_witness :
  let w := MockDb.start [] in
  let request := mkRequest GET [] in
  fst (get_device_properties MockDb.in_order request "a" "b" "c" w) =
    Ok (Body EmptyString) /\
  fst (read_write_device_property request "a" "b" "c" "Limits" w) =
    Raise IndexError.
Proof.
  intros w request.
  apply (empty_database_answer (T:=MockDb.system) MockDb.in_order w request
           "a" "b" "c" "Limits" [] [] []).
  - reflexivity.
  - vm_compute. reflexivity.
  - vm_compute. reflexivity.
  - vm_compute. reflexivity.
Defined.

Lemma get_properties_round_trip_witness :
  let data := [("Description", [Str "a calibrated sensor"]);
               ("Limits", [Str "0"; Str "100"])] in
  let sequence := ["a/b/c"; "2"; "Description"; "1"; "a calibrated sensor";
                   "Limits"; "2"; "0"; "100"] in
  let w := MockDb.start sequence in
  let out :=
    get_device_properties MockDb.in_order (mkRequest GET []) "a" "b" "c" w in
  encode_device_properties "a/b/c" data = Ok sequence /\
  fst out = Ok (Properties (properties_of data)) /\
  calls (snd out) =
    [inner_call "DbGetDevicePropertyList" [AList ["a/b/c"; "*"]];
     inner_call "DbGetDeviceProperty"
       [AList ["a/b/c"; "Description"; "Limits"]]].
Proof.
  intros data sequence w out. split; [reflexivity|].
  apply (get_properties_round_trip (T:=MockDb.system) MockDb.in_order w
           (mkRequest GET []) "a" "b" "c" ["Description"; "Limits"] data
           sequence sequence sequence).
  - reflexivity.
  - vm_compute. reflexivity.
  - reflexivity.
  - vm_compute. reflexivity.
Defined.

Lemma put_properties_sends_query_witness :
  let query := [("Limits", ["0"; "100"]); ("Unit", ["mm"])] in
  let query' :=
    [("Limits", ["0"; "100"]); ("Unit", [chars [99; 97; 102; 233]%N])] in
  let sent := ["a/b/c"; "2"; "Limits"; "2"; "0"; "100"; "Unit"; "1"; "mm"] in
  let w := MockDb.start [] in
  let out :=
    get_device_properties MockDb.in_order (mkRequest POST query) "a" "b" "c"
      w in
  let out' :=
    get_device_properties MockDb.in_order (mkRequest PUT query') "a" "b" "c"
      w in
  (NoDup (map fst query) /\
   encodable (unicode_strings query) = true /\
   encodable (unicode_strings query') = false) /\
  encode_device_properties "a/b/c" (unicode_strings query) = Ok sent /\
  decode_device_properties sent = Ok (properties_of (unicode_strings query)) /\
  calls (snd out) =
    [inner_call "DbPutDeviceProperty" [AList sent];
     inner_call "DbGetDeviceProperty" [AList ["a/b/c"; "Limits"; "Unit"]]] /\
  out' = (Raise UnicodeEncodeError, w).
Proof.
  intros query query' sent w out out'.
  assert (NoDup (map fst query)) as Hnd
    by (apply (bool_decide_unpack (NoDup (map fst query))); vm_compute; exact I).
  assert (NoDup (map fst query')) as Hnd'
    by (apply (bool_decide_unpack (NoDup (map fst query'))); vm_compute;
        exact I).
  split; [split; [exact Hnd|split; reflexivity]|].
  destruct (put_properties_sends_query (T:=MockDb.system) MockDb.in_order
              w (mkRequest POST query) "a" "b" "c")
    as [Hgood _].
  { right. reflexivity. }
  { exact Hnd. }
  { reflexivity. }
  destruct (put_properties_sends_query (T:=MockDb.system) MockDb.in_order
              w (mkRequest PUT query') "a" "b" "c")
    as [_ Hbad].
  { left. reflexivity. }
  { exact Hnd'. }
  { reflexivity. }
  destruct (Hgood eq_refl) as (sent' & Henc & Hdec & _ & Hcalls).
  vm_compute in Henc. injection Henc as <-.
  split; [reflexivity|]. split; [exact Hdec|]. split.
  - apply (Hcalls [] sent). vm_compute. reflexivity.
  - apply Hbad. reflexivity.
Defined.

Lemma refused_property_write_witness :
  let request := mkRequest PUT [("value", ["1"])] in
  let w := MockDb.start ["kept"] in
  fst (read_write_device_property request "x" "y" "z" "Limits" w) =
    Raise (Mock.failure "API_DeviceNotDefined") /\
  calls (snd (read_write_device_property request "x" "y" "z" "Limits" w)) =
    [inner_call "DbPutDeviceProperty"
       [AList ["x/y/z"; "1"; "Limits"; "1"; "1"]]] /\
  get_device_properties MockDb.in_order request "x" "y" "z" w =
    (Raise (Mock.failure "API_DeviceNotDefined"),
     called w
       (inner_call "DbPutDeviceProperty"
          [AList ["x/y/z"; "1"; "value"; "1"; "1"]]) ["kept"]).
Proof.
  intros request w.
  destruct (refused_property_write (T:=MockDb.system) MockDb.in_order w
              request "x" "y" "z" "Limits"
              (Mock.failure "API_DeviceNotDefined") ["kept"])
    as [Hone Hall].
  - left. reflexivity.
  - rewrite Hone by (vm_compute; reflexivity).
    split; [reflexivity|]. split; [reflexivity|].
    apply Hall.
    + reflexivity.
    + vm_compute. reflexivity.
Defined.

End PropsWitness.

(** ** The other routes that need a proxy *)

Module ExtFacts.
Import Bridge Ext.

Section WithSystem.
Context {T : System} (B : Binding T).

(** X18: [post_device_attribute_info] guards the connection with
    [except PyTango.DeviceProxy], a class that no exception belongs to: a
    device that cannot be connected to makes the route raise the very
    exception of the connection, a [DevFailed] included, where the other
    routes answer with the error envelope. *)
Theorem post_info_connection_failure (w w1 : World (extend T)) request
    domain family member attribute e :
  Pool.get_device_proxy (device_name domain family member) w = (Raise e, w1) ->
  post_device_attribute_info B request domain family member attribute w =
  (Raise e, w1).
Proof.
  intros Hproxy. unfold post_device_attribute_info.
  unfold bind at 1, try_except. now rewrite Hproxy.
Qed.


(** X20: [get_device_state] and [get_device_attributes] answer a device
    that cannot be connected to with the error envelope and call nothing
    else. *)
Theorem unreachable_device_envelope_more (w w1 : World (extend T)) request
    domain family member errors :
  Pool.get_device_proxy (device_name domain family member) w =
    (Raise (DevFailed errors), w1) ->
  get_device_state B domain family member w =
    (Ok (Plain (envelope errors w1)), w1) /\
  get_device_attributes B request domain family member w =
    (Ok (Plain (envelope errors w1)), w1).
Proof.
  intros Hproxy. split.
  - unfold get_device_state. unfold bind at 1, try_DevFailed.
    now rewrite Hproxy.
  - unfold get_device_attributes. unfold bind at 1, try_DevFailed.
    now rewrite Hproxy.
Qed.

(** X21: [get_device_attributes] reads and never writes: a query in which
    any attribute comes with a value that is not empty is answered with
    [errors="..."] and no call on the device at all. *)
Theorem get_attributes_refuses_values (w w1 : World (extend T)) request
    domain family member proxy items :
  Pool.get_device_proxy (device_name domain family member) w = (Ok proxy, w1) ->
  args_items (args request) = Ok items ->
  Exists (fun item => snd item <> EmptyString) items ->
  get_device_attributes B request domain family member w =
  (Ok (Errors "..."), w1).
Proof.
  intros Hproxy Hitems Hany. unfold get_device_attributes.
  unfold bind at 1, try_DevFailed. rewrite Hproxy.
  destruct (args request) as [|item rest] eqn:Hargs.
  - inversion Hitems; subst. inversion Hany.
  - unfold bind at 1, lift at 1. rewrite Hitems.
    assert (existsb (fun v => negb (String.eqb v EmptyString))
              (map snd items) = true) as ->; [|reflexivity].
    apply existsb_exists. apply Exists_exists in Hany as (x & Hx & Hne).
    exists (snd x). split.
    + apply in_map. now apply list_elem_of_In.
    + destruct (String.eqb_spec (snd x) EmptyString); [contradiction|reflexivity].
Qed.

Lemma fold_insert_notin (results : list DeviceAttributeEx) key :
  forall data : gmap string AttributeData,
    key ∉ map (fun attr => da_name (da attr)) results ->
    fold_left
      (fun data attr => <[da_name (da attr) := attribute_data attr]> data)
      results data !! key = data !! key.
Proof.
  induction results as [|a results IH]; intros data Hk; [reflexivity|].
  simpl in *. apply not_elem_of_cons in Hk as [Hne Hk].
  rewrite IH by exact Hk. now rewrite lookup_insert_ne.
Qed.

Lemma fold_insert_lookup (results : list DeviceAttributeEx) attr :
  forall data : gmap string AttributeData,
    NoDup (map (fun attr => da_name (da attr)) results) ->
    attr ∈ results ->
    fold_left
      (fun data attr => <[da_name (da attr) := attribute_data attr]> data)
      results data !! da_name (da attr) = Some (attribute_data attr).
Proof.
  induction results as [|a results IH]; intros data Hnd Hin.
  - inversion Hin.
  - simpl in *. apply NoDup_cons in Hnd as [Ha Hnd].
    apply elem_of_cons in Hin as [->|Hin].
    + rewrite fold_insert_notin by exact Ha. apply lookup_insert_eq.
    + now apply IH.
Qed.

(** X22: a query of attribute names without values makes
    [get_device_attributes] read all of them in one call, in the order of
    the query; when the names of the readings are distinct, the answer
    holds each reading under the name of its attribute. *)
Theorem get_attributes_reads_once (w w1 : World (extend T)) request
    domain family member proxy items results e1 :
  let dev := dev_name proxy in
  let out := get_device_attributes B request domain family member w in
  Pool.get_device_proxy (device_name domain family member) w = (Ok proxy, w1) ->
  args request <> [] ->
  args_items (args request) = Ok items ->
  Forall (fun item => snd item = EmptyString) items ->
  read_attributes B dev (map fst items) (fst (env w1)) = (Ok results, e1) ->
  NoDup (map (fun attr => da_name (da attr)) results) ->
  xcalls (snd out) = xcalls w1 ++ [ReadAttributes dev (map fst items)] /\
  calls (snd out) = calls w1 /\
  exists data,
    fst out = Ok (Data data) /\
    forall attr, attr ∈ results ->
      data !! da_name (da attr) = Some (attribute_data attr).
Proof.
  intros dev out Hproxy Hargs Hitems Hall Hread Hnd. subst dev.
  assert (out =
          (Ok (Data (fold_left
                       (fun data attr =>
                          <[da_name (da attr) := attribute_data attr]> data)
                       results ∅)),
           @mkWorld (extend T)
             (e1, snd (env w1) ++
                  [ReadAttributes (dev_name proxy) (map fst items)])
             (calls w1) (created w1) (device_proxies w1) (_methods w1)))
    as ->.
  { unfold out, get_device_attributes. unfold bind at 1, try_DevFailed.
    rewrite Hproxy.
    destruct (args request) as [|item rest] eqn:Hq; [congruence|].
    unfold bind at 1, lift at 1. rewrite Hitems.
    assert (existsb (fun v => negb (String.eqb v EmptyString))
              (map snd items) = false) as ->.
    { apply not_true_is_false. intros Hex.
      apply existsb_exists in Hex as (v & Hv & Hne).
      apply in_map_iff in Hv as (x & <- & Hx).
      rewrite Forall_forall in Hall.
      rewrite (Hall x) in Hne by now apply list_elem_of_In.
      discriminate Hne. }
    simpl negb. cbv iota.
    unfold bind, proxy_read_attributes, xremote, ret. simpl.
    now rewrite Hread. }
  unfold xcalls. simpl. split; [reflexivity|]. split; [reflexivity|].
  eexists. split; [reflexivity|].
  intros attr Hin. now apply fold_insert_lookup.
Qed.

End WithSystem.

Lemma post_info_connection_failure_witness :
  let w := MockExt.start (Mock.mkEnv 1000 50) in
  let request := mkRequest PUT [("label", ["Level"])] in
  fst (post_device_attribute_info MockExt.binding request "x" "y" "z" "level" w)
    = Raise (Mock.failure "API_DeviceNotDefined") /\
  fst (get_device_state MockExt.binding "x" "y" "z" w) =
    Ok (Plain
          (mkResponse
             (ErrorEnvelope
                [mkErrorRecord "API_DeviceNotDefined" "mock failure" "ERR"
                   "Mock"]
                "FAILURE" 1000)
             500)).
Proof.
  intros w request.
  set (w1 := @mkWorld (extend Mock.system) (Mock.mkEnv 1000 50, [])
               [NewDeviceProxy "x/y/z"] 0 [] ∅).
  assert (Pool.get_device_proxy (device_name "x" "y" "z") w =
          (Raise (Mock.failure "API_DeviceNotDefined"), w1)) as Hproxy
    by (vm_compute; reflexivity).
  split.
  - now rewrite (post_info_connection_failure MockExt.binding w w1 request
                   "x" "y" "z" "level" _ Hproxy).
  - vm_compute. reflexivity.
Defined.


Lemma unreachable_device_envelope_more_witness :
  let w := MockExt.start (Mock.mkEnv 1000 50) in
  let w1 := @mkWorld (extend Mock.system) (Mock.mkEnv 1000 50, [])
              [NewDeviceProxy "x/y/z"] 0 [] ∅ in
  let answer :=
    Plain
      (mkResponse
         (ErrorEnvelope
            [mkErrorRecord "API_DeviceNotDefined" "mock failure" "ERR" "Mock"]
            "FAILURE" 1000)
         500) in
  get_device_state MockExt.binding "x" "y" "z" w = (Ok answer, w1) /\
  get_device_attributes MockExt.binding (mkRequest GET [("level", [EmptyString])])
    "x" "y" "z" w = (Ok answer, w1).
Proof.
  intros w w1 answer.
  apply (unreachable_device_envelope_more MockExt.binding w w1
           (mkRequest GET [("level", [EmptyString])]) "x" "y" "z"
           [mkDevError "API_DeviceNotDefined" "mock failure" ERR "Mock"]).
  vm_compute. reflexivity.
Defined.

Lemma get_attributes_refuses_values_witness :
  let w := MockExt.start (Mock.mkEnv 1000 50) in
  let request := mkRequest GET [("level", [EmptyString]); ("setpoint", ["9"])] in
  let out := get_device_attributes MockExt.binding request "a" "b" "c" w in
  fst out = Ok (Errors "...") /\
  xcalls (snd out) = [] /\ calls (snd out) = [NewDeviceProxy "a/b/c"] /\
  fst (env (snd out)) = Mock.mkEnv 1000 50.
Proof.
  intros w request out.
  set (proxy := mkDeviceProxy "a/b/c" 0).
  set (w1 := @mkWorld (extend Mock.system) (Mock.mkEnv 1000 50, [])
               [NewDeviceProxy "a/b/c"] 1 [("a/b/c", proxy)] ∅).
  assert (out = (Ok (Errors "..."), w1)) as ->.
  { apply (get_attributes_refuses_values MockExt.binding w w1 request
             "a" "b" "c" proxy [("level", EmptyString); ("setpoint", "9")]).
    - vm_compute. reflexivity.
    - reflexivity.
    - apply Exists_cons_tl. apply Exists_cons_hd. discriminate. }
  repeat split.
Defined.

Lemma get_attributes_reads_once_witness :
  let w := MockExt.start (Mock.mkEnv 1000 50) in
  let request :=
    mkRequest GET [("level", [EmptyString]); ("stuck", [EmptyString])] in
  let out := get_device_attributes MockExt.binding request "a" "b" "c" w in
  xcalls (snd out) = [ReadAttributes "a/b/c" ["level"; "stuck"]] /\
  calls (snd out) = [NewDeviceProxy "a/b/c"] /\
  exists data,
    fst out = Ok (Data data) /\
    data !! "level" =
      Some (mkAttributeData (PInt 50) "ATTR_VALID" 1000 None None) /\
    data !! "stuck" =
      Some (mkAttributeData (PInt 50) "ATTR_VALID" 1000 None (Some true)).
Proof.
  intros w request out.
  set (proxy := mkDeviceProxy "a/b/c" 0).
  set (w1 := @mkWorld (extend Mock.system) (Mock.mkEnv 1000 50, [])
               [NewDeviceProxy "a/b/c"] 1 [("a/b/c", proxy)] ∅).
  set (e := Mock.mkEnv 1000 50).
  set (level := mkDeviceAttributeEx (Mock.reading "level" e) PNone false).
  set (stuck := mkDeviceAttributeEx (Mock.reading "stuck" e) PNone true).
  destruct (get_attributes_reads_once MockExt.binding w w1 request
              "a" "b" "c" proxy
              [("level", EmptyString); ("stuck", EmptyString)]
              [level; stuck] e)
    as (Hx & Hc & data & Hout & Hdata).
  - vm_compute. reflexivity.
  - discriminate.
  - reflexivity.
  - repeat constructor.
  - reflexivity.
  - apply (bool_decide_unpack _). vm_compute. exact I.
  - split; [exact Hx|]. split; [exact Hc|].
    exists data. split; [exact Hout|]. split.
    + apply (Hdata level). apply elem_of_cons. now left.
    + apply (Hdata stuck). apply elem_of_cons. right.
      apply elem_of_cons. now left.
Defined.

End ExtFacts.

